(** * UART receiver / transmitter timing model (uart.py)

    A shallow embedding of [clock_divider], of the synchronous logic that
    [UART_RX.elaborate] and [UART_TX.elaborate] describe, and of the
    testbench generator [uart_rx_byte], followed by the properties of the
    design that are checked against them.

    Conventions.
    - A [Signal(w)] is a [Z] in [[0, 2^w)]; every assignment to it is
      truncated to [w] bits ([trunc]).
    - One call of [elaborate] is one rising clock edge of the [sync] domain:
      all right-hand sides read the registers of the previous cycle, and
      where several [m.d.sync] statements assign one signal the last one
      that is active wins.
    - Python integers are [Z]; [//] is [Z.div] (both round to minus
      infinity).
    - The relative error of [clock_divider] is computed by Python in binary64
      floating point; the model computes the exact rational those floats
      approximate ([Q]). *)

From Stdlib Require Import ZArith QArith Qabs Bool List Lia.
Import ListNotations.

Local Open Scope Z_scope.

(** ** Signals *)

(** nMigen's [bits_for(n)]: the width [Signal(range(n + 1))] gets. *)
Definition bits_for (n : Z) : Z :=
  if 0 <? n then Z.log2_up (n + 1) else Z.log2_up (- n) + 1.

(** Assignment of a value to a [w]-bit unsigned signal. *)
Definition trunc (w x : Z) : Z := x mod 2 ^ w.

(** ** clock_divider *)

Module ClockDivider.

Inductive exn : Type :=
| ZeroDivisionError
| ValueError.

(** The two lines the function can [print], with the values it formats. *)
Inductive message : Type :=
| InvalidFrequencies (inf outf : Z)
| ErrorRateTooHigh (err max_err : Q).

(** What a call does: the lines printed, then a return value or a raise. *)
Record outcome : Type := Outcome {
  printed : list message;
  result  : Z + exn
}.

Definition ret (d : Z) : outcome := Outcome [] (inl d).
Definition raise_with (m : message) (e : exn) : outcome := Outcome [m] (inr e).

(** [err = ( ( inf / div ) - outf ) / outf] *)
Definition rel_err (inf div outf : Z) : Q :=
  ((inject_Z inf / inject_Z div - inject_Z outf) / inject_Z outf)%Q.

(** [a > b] on rationals, as a boolean. *)
Definition Qgtb (a b : Q) : bool := negb (Qle_bool a b).

Definition clock_divider (inf outf : Z) (max_err : Q) : outcome :=
  if outf =? 0 then Outcome [] (inr ZeroDivisionError) else
  let div := inf / outf in
  if div <? 1 then raise_with (InvalidFrequencies inf outf) ValueError else
  let err := rel_err inf div outf in
  if Qgtb err max_err then raise_with (ErrorRateTooHigh err max_err) ValueError else
  ret div.



Definition excessive_timing_error (o : outcome) : Prop :=
  exists e m, o = raise_with (ErrorRateTooHigh e m) ValueError.

End ClockDivider.

(** ** UART_RX *)

Module RX.

Inductive fsm_state : Type :=
| RX_IDLE | RX_START | RX_DATA | RX_STOP | RX_FULL | RX_ERROR.

(** The registers of the [sync] domain.  [rx_ack] and [rx_fix] are plain
    [Signal()]s of the module: the testbench writes them, and the [RX_IDLE]
    branch assigns them too. *)
Record regs : Type := Regs {
  fsm      : fsm_state;
  rx_count : Z;
  rx_buf   : Z;
  rx_bit   : Z;
  rx_ack   : bool;
  rx_fix   : bool
}.

(** Every signal at its reset value, the FSM in its first state. *)
Definition reset : regs := Regs RX_IDLE 0 0 0 false false.

Definition with_count (c : Z) (s : regs) : regs :=
  Regs (fsm s) c (rx_buf s) (rx_bit s) (rx_ack s) (rx_fix s).

Definition with_fsm (f : fsm_state) (s : regs) : regs :=
  Regs f (rx_count s) (rx_buf s) (rx_bit s) (rx_ack s) (rx_fix s).

Section Elaborate.

(** [self.clk_div] *)
Variable clk_div : Z.

(** [Signal( range( self.clk_div ) )] *)
Definition count_width : Z := bits_for (clk_div - 1).

(** [m.d.comb += self.rx_strobe.eq( self.rx_count == 0 )] *)
Definition rx_strobe (s : regs) : bool := rx_count s =? 0.

(** The [If]/[Else] on [rx_count] at the top of [elaborate]. *)
Definition count_tick (c : Z) : Z :=
  if c =? clk_div - 1 then 0 else trunc count_width (c + 1).

(** [Cat( self.rx_buf[ 1 : 8 ], self.rx )]: bits 1..7 of the buffer become
    bits 0..6, the line value becomes bit 7. *)
Definition shift_in (buf : Z) (rx : bool) : Z :=
  Z.lor (Z.land (Z.shiftr buf 1) 127) (Z.shiftl (Z.b2z rx) 7).

(** One clock edge.  The counter statement comes first; the FSM branch
    that is active is applied after it. *)
Definition elaborate (rx : bool) (s : regs) : regs :=
  let s1 := with_count (count_tick (rx_count s)) s in
  match fsm s with
  | RX_IDLE =>
      if negb rx
      then Regs RX_START (trunc count_width (clk_div / 2)) 0 0 false false
      else s1
  | RX_START =>
      if rx_strobe s then with_fsm RX_DATA s1 else s1
  | RX_DATA =>
      if rx_strobe s
      then Regs (if rx_bit s =? 7 then RX_STOP else RX_DATA)
                (rx_count s1)
                (trunc 8 (shift_in (rx_buf s) rx))
                (trunc 3 (rx_bit s + 1))
                (rx_ack s) (rx_fix s)
      else s1
  | RX_STOP =>
      if rx_strobe s
      then (if rx then with_fsm RX_FULL s1 else with_fsm RX_ERROR s1)
      else s1
  | RX_FULL =>
      if rx_ack s then with_fsm RX_IDLE s1
      else if negb rx then with_fsm RX_ERROR s1
      else s1
  | RX_ERROR =>
      if rx_fix s then with_fsm RX_IDLE s1 else s1
  end.

(** What one strobe in [RX_DATA] leaves in the 8-bit buffer. *)
Definition sample (buf : Z) (rx : bool) : Z := trunc 8 (shift_in buf rx).

(** The receiver left alone from reset with the line at its idle level:
    no FSM branch assigns the counter, which runs free. *)
Definition free_run (n : nat) : regs := Nat.iter n (elaborate true) reset.

End Elaborate.

(** The states in which no FSM branch fires however the counter stands,
    or fires on the strobe only: the three timed states, [RX_IDLE] with
    the line high, [RX_FULL] with no acknowledge and the line high,
    [RX_ERROR] with no fix. *)
Definition settled (rx : bool) (s : regs) : Prop :=
  match fsm s with
  | RX_IDLE => rx = true
  | RX_START | RX_DATA | RX_STOP => True
  | RX_FULL => rx_ack s = false /\ rx = true
  | RX_ERROR => rx_fix s = false
  end.

(** The states that wait for the strobe. *)
Definition timed (s : regs) : Prop :=
  fsm s = RX_START \/ fsm s = RX_DATA \/ fsm s = RX_STOP.

End RX.

(** ** UART_TX *)

Module TX.

Record regs : Type := Regs {
  tx       : bool;
  tx_count : Z;
  tx_buf   : Z;
  tx_bit   : Z;
  tx_fix   : bool
}.

Definition reset : regs := Regs false 0 0 0 false.

Section Elaborate.

Variable clk_div : Z.

Definition count_width : Z := bits_for (clk_div - 1).

(** [m.d.comb += self.tx_strobe.eq( self.tx_count == 0 )] *)
Definition tx_strobe (s : regs) : bool := tx_count s =? 0.

(** One clock edge: only the counter statement exists. *)
Definition elaborate (s : regs) : regs :=
  Regs (tx s)
       (if tx_count s =? clk_div - 1 then 0
        else trunc count_width (tx_count s + 1))
       (tx_buf s) (tx_bit s) (tx_fix s).

(** The registers after [n] clock edges. *)
Definition after (n : nat) (s : regs) : regs := Nat.iter n elaborate s.

End Elaborate.

End TX.

(** ** The testbench *)

Module Testbench.

Import RX.

(** What a sync process can [yield]. *)
Inductive command : Type :=
| SetRx  (b : bool)     (* [yield uart.rx.eq( b )] *)
| SetAck (b : bool)     (* [yield uart.rx_ack.eq( b )] *)
| SetFix (b : bool)     (* [yield uart.rx_fix.eq( b )] *)
| Tick.                 (* [yield Tick()] *)

(** The simulated design: the line the testbench drives and the
    receiver's registers. *)
Record sim : Type := Sim {
  line : bool;
  dut  : regs
}.

Definition exec (clk_div : Z) (c : command) (x : sim) : sim :=
  match c with
  | SetRx b  => Sim b (dut x)
  | SetAck b =>
      let s := dut x in
      Sim (line x) (Regs (fsm s) (rx_count s) (rx_buf s) (rx_bit s) b (rx_fix s))
  | SetFix b =>
      let s := dut x in
      Sim (line x) (Regs (fsm s) (rx_count s) (rx_buf s) (rx_bit s) (rx_ack s) b)
  | Tick     => Sim (line x) (elaborate clk_div (line x) (dut x))
  end.

Fixpoint run (clk_div : Z) (cs : list command) (x : sim) : sim :=
  match cs with
  | [] => x
  | c :: cs' => run clk_div cs' (exec clk_div c x)
  end.

(** The registers seen after each [Tick], in order. *)
Fixpoint trace (clk_div : Z) (cs : list command) (x : sim) : list regs :=
  match cs with
  | [] => []
  | c :: cs' =>
      let x' := exec clk_div c x in
      match c with
      | Tick => dut x' :: trace clk_div cs' x'
      | _    => trace clk_div cs' x'
      end
  end.

(** [for i in range( uart.clk_div ): yield Tick()] *)
Definition bit_period (clk_div : Z) : list command :=
  repeat Tick (Z.to_nat clk_div).

(** The test [val & ( 1 << i )] of [uart_rx_byte]. *)
Definition line_bit (val : Z) (i : nat) : bool :=
  negb (Z.land val (Z.shiftl 1 (Z.of_nat i)) =? 0).

(** [uart_rx_byte( uart, val )] *)
Definition uart_rx_byte (clk_div val : Z) : list command :=
  SetRx false :: bit_period clk_div
  ++ flat_map
       (fun i => SetRx (line_bit val i) :: bit_period clk_div)
       (seq 0 8)
  ++ SetRx true :: bit_period clk_div.

(** The line held at one level for one bit period. *)
Definition hold (clk_div : Z) (b : bool) : list command :=
  SetRx b :: bit_period clk_div.

(** A command that asserts [rx_fix]. *)
Definition asserts_fix (c : command) : Prop := c = SetFix true.

(** The simulator's first state: the design at reset, the line at the
    reset value of [Signal()]. *)
Definition power_on : sim := Sim false reset.

End Testbench.

(** ** The constructors, the combined interface and the receive test *)

Module Device.


(** [class UART]: the receiver and the transmitter as submodules of one
    module, each built with its own divisor, both in the [sync] domain. *)
Record uart : Type := UART {
  uart_rx : RX.regs;
  uart_tx : TX.regs
}.

Definition reset : uart := UART RX.reset TX.reset.

(** One clock edge of the combined module. *)
Definition elaborate (rx_div tx_div : Z) (rx : bool) (u : uart) : uart :=
  UART (RX.elaborate rx_div rx (uart_rx u)) (TX.elaborate tx_div (uart_tx u)).

(** One clock edge per element of [levels], the level of the [rx] line at
    that edge. *)
Fixpoint clocked (rx_div tx_div : Z) (levels : list bool) (u : uart) : uart :=
  match levels with
  | [] => u
  | rx :: levels' => clocked rx_div tx_div levels' (elaborate rx_div tx_div rx u)
  end.

(** The level of the [rx] line at each clock edge while [uart_rx_byte]
    runs: start bit, eight data bits, stop bit, [clk_div] edges each. *)
Definition frame_levels (clk_div val : Z) : list bool :=
  repeat false (Z.to_nat clk_div)
  ++ flat_map (fun i => repeat (Testbench.line_bit val i) (Z.to_nat clk_div))
              (seq 0 8)
  ++ repeat true (Z.to_nat clk_div).

End Device.

Module Tests.

Import Testbench.


End Tests.

(** ** Shapes used to state the invariants of the receiver *)

Module RXShape.

Import RX.

(** Every register inside the range of its [Signal]; for [rx_count] the
    range is [range( clk_div )]. *)
Definition in_range (clk_div : Z) (s : regs) : Prop :=
  0 <= rx_count s < clk_div
  /\ 0 <= rx_buf s < 256
  /\ 0 <= rx_bit s < 8.

(** The [m.next] targets of each [m.State] block, plus the state itself. *)
Definition successors (f : fsm_state) : list fsm_state :=
  match f with
  | RX_IDLE  => [RX_IDLE; RX_START]
  | RX_START => [RX_START; RX_DATA]
  | RX_DATA  => [RX_DATA; RX_STOP]
  | RX_STOP  => [RX_STOP; RX_FULL; RX_ERROR]
  | RX_FULL  => [RX_FULL; RX_IDLE; RX_ERROR]
  | RX_ERROR => [RX_ERROR; RX_IDLE]
  end.

(** The edges on which the FSM writes the buffer and the bit index. *)
Definition writes_data (rx : bool) (s : regs) : Prop :=
  (fsm s = RX_IDLE /\ rx = false) \/ (fsm s = RX_DATA /\ rx_strobe s = true).

End RXShape.

(** ** Properties of clock_divider *)

Module ClockDividerFacts.

Import ClockDivider.



















End ClockDividerFacts.

(** ** The bit-timing counter *)

Module Timing.

(** A counter of [Signal( range( div ) )] holds every value below [div]. *)
Lemma width_fits div : 1 <= div -> div <= 2 ^ bits_for (div - 1).
Proof.
  intros Hdiv. unfold bits_for.
  destruct (Z.ltb_spec 0 (div - 1)) as [Hgt|Hle].
  - replace (div - 1 + 1) with div by lia.
    apply Z.log2_up_spec. lia.
  - replace div with 1 by lia. discriminate.
Qed.

Lemma trunc_small w x : 0 <= x < 2 ^ w -> trunc w x = x.
Proof. intros H. unfold trunc. now apply Z.mod_small. Qed.

Lemma trunc_count div c :
  1 <= div -> 0 <= c < div -> trunc (bits_for (div - 1)) c = c.
Proof.
  intros Hdiv Hc. apply trunc_small.
  pose proof (width_fits div Hdiv). lia.
Qed.

(** Inside its range the counter statement is the successor modulo [div]. *)
Lemma count_tick_mod div c :
  1 <= div -> 0 <= c < div -> RX.count_tick div c = (c + 1) mod div.
Proof.
  intros Hdiv Hc. unfold RX.count_tick, RX.count_width.
  destruct (Z.eqb_spec c (div - 1)) as [->|Hne].
  - replace (div - 1 + 1) with div by lia. now rewrite Z.mod_same by lia.
  - rewrite trunc_count by lia. now rewrite Z.mod_small by lia.
Qed.

Lemma count_tick_step div c :
  1 <= div -> 0 <= c < div - 1 -> RX.count_tick div c = c + 1.
Proof.
  intros Hdiv Hc. rewrite count_tick_mod by lia. apply Z.mod_small. lia.
Qed.

Lemma count_tick_wrap div : RX.count_tick div (div - 1) = 0.
Proof. unfold RX.count_tick. now rewrite Z.eqb_refl. Qed.

Lemma free_run_S div n :
  RX.free_run div (S n) = RX.elaborate div true (RX.free_run div n).
Proof. reflexivity. Qed.

Lemma tx_after_S div n s :
  TX.after div (S n) s = TX.elaborate div (TX.after div n s).
Proof. reflexivity. Qed.

(** With the line high the receiver stays in [RX_IDLE] and only counts. *)
Lemma free_run_count div n :
  1 <= div ->
  RX.free_run div n = RX.with_count (Z.of_nat n mod div) RX.reset.
Proof.
  intros Hdiv. induction n as [|n IH].
  - change (Z.of_nat 0) with 0. now rewrite Z.mod_0_l by lia.
  - rewrite free_run_S, IH.
    unfold RX.elaborate, RX.with_count, RX.reset.
    cbn [RX.fsm RX.rx_count negb RX.rx_buf RX.rx_bit RX.rx_ack RX.rx_fix].
    f_equal. rewrite count_tick_mod by (try apply Z.mod_pos_bound; lia).
    rewrite Z.add_mod_idemp_l by lia. f_equal. lia.
Qed.

(** The transmitter's counter is the same free-running counter. *)
Lemma tx_after_count div n :
  1 <= div ->
  TX.tx_count (TX.after div n TX.reset) = Z.of_nat n mod div.
Proof.
  intros Hdiv. induction n as [|n IH].
  - change (Z.of_nat 0) with 0. now rewrite Z.mod_0_l by lia.
  - rewrite tx_after_S. cbn [TX.elaborate TX.tx_count].
    rewrite IH.
    change (if Z.of_nat n mod div =? div - 1 then 0
            else trunc (TX.count_width div) (Z.of_nat n mod div + 1))
      with (RX.count_tick div (Z.of_nat n mod div)).
    rewrite count_tick_mod by (try apply Z.mod_pos_bound; lia).
    rewrite Z.add_mod_idemp_l by lia. f_equal. lia.
Qed.

Lemma tx_strobe_periodic div n :
  1 <= div ->
  TX.tx_strobe (TX.after div n TX.reset) = (Z.of_nat n mod div =? 0).
Proof. intros Hdiv. unfold TX.tx_strobe. now rewrite tx_after_count. Qed.

(** Every window of [div] consecutive ticks holds one multiple of [div]. *)
Lemma one_multiple_per_window div k :
  1 <= div ->
  exists n : nat,
    ((k <= n < k + Z.to_nat div)%nat /\ Z.of_nat n mod div = 0)
    /\ forall m : nat,
         (k <= m < k + Z.to_nat div)%nat -> Z.of_nat m mod div = 0 -> m = n.
Proof.
  intros Hdiv.
  set (r := (- Z.of_nat k) mod div).
  assert (Hr : 0 <= r < div) by (apply Z.mod_pos_bound; lia).
  assert (H0 : (Z.of_nat k + r) mod div = 0).
  { unfold r. rewrite Z.add_mod_idemp_r by lia.
    replace (Z.of_nat k + - Z.of_nat k) with 0 by lia.
    apply Z.mod_0_l. lia. }
  exists (Z.to_nat (Z.of_nat k + r)). split; [split|].
  - lia.
  - rewrite Z2Nat.id by lia. exact H0.
  - intros m Hm Hm0.
    apply Nat2Z.inj. rewrite Z2Nat.id by lia.
    pose proof (Z.div_mod (Z.of_nat m) div ltac:(lia)) as E1.
    pose proof (Z.div_mod (Z.of_nat k + r) div ltac:(lia)) as E2.
    rewrite Hm0 in E1. rewrite H0 in E2.
    assert (Z.of_nat m / div = (Z.of_nat k + r) / div) by nia.
    nia.
Qed.

(** C3.  Left to run free from 0, the counter with the update rule
    [if counter == div - 1 then 0 else counter + 1] makes the strobe
    [counter == 0] true at tick [n] exactly when [n mod div = 0]; hence
    every window of [div] consecutive ticks contains exactly one tick with
    the strobe asserted, for ever. *)
Theorem strobe_periodic (div : Z) :
  1 <= div ->
  (forall n : nat,
      RX.rx_count (RX.free_run div n) = Nat.iter n (RX.count_tick div) 0
      /\ RX.rx_strobe (RX.free_run div n) = (Z.of_nat n mod div =? 0))
  /\ (forall k : nat,
        exists n : nat,
          ((k <= n < k + Z.to_nat div)%nat
           /\ RX.rx_strobe (RX.free_run div n) = true)
          /\ forall m : nat,
               (k <= m < k + Z.to_nat div)%nat ->
               RX.rx_strobe (RX.free_run div m) = true -> m = n).
Proof.
  intros Hdiv.
  assert (Hs : forall n,
             RX.rx_strobe (RX.free_run div n) = (Z.of_nat n mod div =? 0)).
  { intros n. now rewrite free_run_count. }
  split.
  - intros n. split; [|apply Hs].
    induction n as [|n IH]; [reflexivity|].
    change (Nat.iter (S n) (RX.count_tick div) 0)
      with (RX.count_tick div (Nat.iter n (RX.count_tick div) 0)).
    rewrite <- IH, !free_run_count by lia.
    unfold RX.with_count. cbn [RX.rx_count].
    rewrite count_tick_mod by (try apply Z.mod_pos_bound; lia).
    rewrite Z.add_mod_idemp_l by lia. f_equal. lia.
  - intros k.
    destruct (one_multiple_per_window div k Hdiv) as [n [[Hn Hn0] Hu]].
    exists n. split; [split|].
    + exact Hn.
    + rewrite Hs. now apply Z.eqb_eq.
    + intros m Hm Hm0. apply Hu; [exact Hm|].
      rewrite Hs in Hm0. now apply Z.eqb_eq.
Qed.

Lemma strobe_periodic_witness :
  RX.rx_strobe (RX.free_run 24 48) = (48 mod 24 =? 0)
  /\ exists n : nat,
       ((5 <= n < 5 + Z.to_nat 24)%nat
        /\ RX.rx_strobe (RX.free_run 24 n) = true)
       /\ forall m : nat,
            (5 <= m < 5 + Z.to_nat 24)%nat ->
            RX.rx_strobe (RX.free_run 24 m) = true -> m = n.
Proof.
  destruct (strobe_periodic 24) as [H1 H2].
  - lia.
  - split.
    + exact (proj2 (H1 48%nat)).
    + exact (H2 5%nat).
Defined.

End Timing.

(** ** The transmitter *)

Module TXFacts.

Lemma elaborate_keeps_tx div s : TX.tx (TX.elaborate div s) = TX.tx s.
Proof. reflexivity. Qed.

Lemma after_keeps_tx div n s : TX.tx (TX.after div n s) = TX.tx s.
Proof.
  induction n as [|n IH]; [reflexivity|].
  now rewrite Timing.tx_after_S, elaborate_keeps_tx.
Qed.

(** C9.  No statement of [UART_TX.elaborate] assigns [tx]: after any
    number of clock edges, for any divisor, it still holds its reset
    value 0, so the transmit line reads low all the time. *)
Theorem tx_line_stays_low :
  forall (div : Z) (n : nat), TX.tx (TX.after div n TX.reset) = false.
Proof. intros div n. now rewrite after_keeps_tx. Qed.

End TXFacts.

(** ** One clock edge of the receiver *)

Module RXStep.

Import RX.

(** C4.  In [RX_FULL]: with [rx_ack] set the next state is [RX_IDLE]
    whatever the line does, also when it is low; with [rx_ack] clear and
    the line low the next state is [RX_ERROR] (not [RX_START]); with
    [rx_ack] clear and the line high the state stays [RX_FULL]. *)
Theorem full_transitions (div : Z) (s : regs) :
  fsm s = RX_FULL ->
  (rx_ack s = true -> forall rx, fsm (elaborate div rx s) = RX_IDLE)
  /\ (rx_ack s = false -> fsm (elaborate div false s) = RX_ERROR)
  /\ (rx_ack s = false -> fsm (elaborate div true s) = RX_FULL).
Proof.
  intros Hf. unfold elaborate. rewrite Hf.
  repeat split; intros Ha; try intros rx; rewrite Ha;
    cbn [negb fsm with_fsm with_count]; solve [reflexivity | exact Hf].
Qed.

Lemma full_transitions_witness :
  fsm (elaborate 24 false (Regs RX_FULL 5 0xAF 0 true false)) = RX_IDLE
  /\ fsm (elaborate 24 false (Regs RX_FULL 5 0xAF 0 false false)) = RX_ERROR
  /\ fsm (elaborate 24 true (Regs RX_FULL 5 0xAF 0 false false)) = RX_FULL.
Proof.
  split; [|split].
  - apply (full_transitions 24 (Regs RX_FULL 5 0xAF 0 true false));
      reflexivity.
  - apply (full_transitions 24 (Regs RX_FULL 5 0xAF 0 false false));
      reflexivity.
  - apply (full_transitions 24 (Regs RX_FULL 5 0xAF 0 false false));
      reflexivity.
Defined.

(** C7, as stated, fails: the first bit latched lands in bit 7 of the
    buffer, not in the bit that [rx_bit] names. *)
Lemma first_bit_lands_in_bit_7 :
  let s := Regs RX_DATA 0 0 0 false false in
  rx_strobe s = true
  /\ rx_buf (elaborate 24 true s) = 128
  /\ Z.testbit (rx_buf (elaborate 24 true s)) (rx_bit s) = false.
Proof. repeat split. Qed.

Lemma shift_in_range buf rx : 0 <= shift_in buf rx < 2 ^ 8.
Proof.
  unfold shift_in.
  assert (H1 : 0 <= Z.land (Z.shiftr buf 1) 127 < 2 ^ 7).
  { split.
    - apply Z.land_nonneg. right. lia.
    - change 127 with (Z.ones 7). rewrite Z.land_ones by lia.
      apply Z.mod_pos_bound. reflexivity. }
  assert (H2 : 0 <= Z.shiftl (Z.b2z rx) 7 < 2 ^ 8) by (destruct rx; cbn; lia).
  split.
  - apply Z.lor_nonneg. lia.
  - destruct (Z.eq_dec (Z.lor (Z.land (Z.shiftr buf 1) 127)
                              (Z.shiftl (Z.b2z rx) 7)) 0) as [->|Hne];
      [reflexivity|].
    apply Z.log2_lt_pow2.
    + assert (0 <= Z.lor (Z.land (Z.shiftr buf 1) 127)
                        (Z.shiftl (Z.b2z rx) 7))
        by (apply Z.lor_nonneg; lia).
      lia.
    + rewrite Z.log2_lor by lia.
      apply Z.max_lub_lt.
      * destruct (Z.eq_dec (Z.land (Z.shiftr buf 1) 127) 0) as [->|];
          [reflexivity|].
        apply Z.lt_trans with 7; [|lia].
        apply Z.log2_lt_pow2; lia.
      * destruct rx; cbn; lia.
Qed.

Lemma shift_in_testbit buf rx i :
  0 <= i ->
  Z.testbit (shift_in buf rx) i
  = if i <? 7 then Z.testbit buf (i + 1)
    else if i =? 7 then rx else false.
Proof.
  intros Hi. unfold shift_in.
  rewrite Z.lor_spec, Z.land_spec, Z.shiftr_spec, Z.shiftl_spec by lia.
  change 127 with (Z.ones 7).
  destruct (Z.ltb_spec i 7) as [Hlt|Hge].
  - rewrite Z.ones_spec_low by lia.
    rewrite (Z.testbit_neg_r _ (i - 7)) by lia.
    now rewrite andb_true_r, orb_false_r.
  - rewrite Z.ones_spec_high by lia. rewrite andb_false_r. cbn [orb].
    destruct (Z.eqb_spec i 7) as [->|Hne].
    + destruct rx; reflexivity.
    + destruct rx; cbn [Z.b2z].
      * apply Z.bits_above_log2; cbn; lia.
      * apply Z.bits_0.
Qed.

(** C7, amended.  In [RX_DATA], on a strobe, the buffer moves down by
    one position and the sampled line value is stored in bit 7 (the bit
    that was in position [i + 1] is now in position [i], for [i < 7]), and
    [rx_bit] is incremented by 1 modulo 8. *)
Theorem data_strobe_shifts_in (div : Z) (rx : bool) (s : regs) :
  fsm s = RX_DATA -> rx_strobe s = true ->
  let s' := elaborate div rx s in
  Z.testbit (rx_buf s') 7 = rx
  /\ (forall i, 0 <= i < 7 ->
                Z.testbit (rx_buf s') i = Z.testbit (rx_buf s) (i + 1))
  /\ (forall i, 8 <= i -> Z.testbit (rx_buf s') i = false)
  /\ rx_bit s' = (rx_bit s + 1) mod 8.
Proof.
  intros Hf Hs. unfold elaborate. rewrite Hf, Hs. cbn [rx_buf rx_bit].
  rewrite Timing.trunc_small by apply shift_in_range.
  repeat split.
  - now rewrite shift_in_testbit by lia.
  - intros i Hi. rewrite shift_in_testbit by lia.
    destruct (Z.ltb_spec i 7); [reflexivity | lia].
  - intros i Hi. rewrite shift_in_testbit by lia.
    destruct (Z.ltb_spec i 7); [lia|].
    destruct (Z.eqb_spec i 7); [lia | reflexivity].
Qed.

Lemma data_strobe_shifts_in_witness :
  let s' := elaborate 24 true (Regs RX_DATA 0 0x55 7 false false) in
  Z.testbit (rx_buf s') 7 = true
  /\ (forall i, 0 <= i < 7 ->
                Z.testbit (rx_buf s') i = Z.testbit 0x55 (i + 1))
  /\ (forall i, 8 <= i -> Z.testbit (rx_buf s') i = false)
  /\ rx_bit s' = (7 + 1) mod 8.
Proof.
  apply (data_strobe_shifts_in 24 true (Regs RX_DATA 0 0x55 7 false false));
    reflexivity.
Defined.

(** C8, as stated, fails: leaving [RX_IDLE] the engine writes 0 to both
    handshake signals. *)
Lemma idle_start_clears_handshake :
  let s := Regs RX_IDLE 0 0 0 true true in
  rx_ack (elaborate 24 false s) = false
  /\ rx_fix (elaborate 24 false s) = false
  /\ rx_ack (elaborate 24 false s) <> rx_ack s
  /\ rx_fix (elaborate 24 false s) <> rx_fix s.
Proof. repeat split; discriminate. Qed.

(** C8, amended.  The engine writes [rx_ack] and [rx_fix] on one edge
    only, the one that leaves [RX_IDLE] because the line is low, where it
    clears both; on every other edge, in every state, both keep their
    value.  It never sets either of them. *)
Theorem handshake_written_only_leaving_idle (div : Z) (rx : bool) (s : regs) :
  (fsm s = RX_IDLE /\ rx = false ->
   rx_ack (elaborate div rx s) = false /\ rx_fix (elaborate div rx s) = false)
  /\ (~ (fsm s = RX_IDLE /\ rx = false) ->
      rx_ack (elaborate div rx s) = rx_ack s
      /\ rx_fix (elaborate div rx s) = rx_fix s).
Proof.
  split.
  - intros [Hf ->]. unfold elaborate. rewrite Hf. split; reflexivity.
  - intros Hn. unfold elaborate.
    destruct (fsm s) eqn:Hf.
    + destruct rx; [split; reflexivity|]. exfalso. apply Hn. now split.
    + destruct (rx_strobe s); split; reflexivity.
    + destruct (rx_strobe s); split; reflexivity.
    + destruct (rx_strobe s), rx; split; reflexivity.
    + destruct (rx_ack s) eqn:Ha, rx;
        cbn [negb rx_ack rx_fix with_fsm with_count];
        split; solve [reflexivity | exact Ha].
    + destruct (rx_fix s) eqn:Hx;
        cbn [rx_ack rx_fix with_fsm with_count];
        split; solve [reflexivity | exact Hx].
Qed.

Lemma handshake_written_only_leaving_idle_witness :
  (rx_ack (elaborate 24 false (Regs RX_IDLE 3 0 0 true true)) = false
   /\ rx_fix (elaborate 24 false (Regs RX_IDLE 3 0 0 true true)) = false)
  /\ (rx_ack (elaborate 24 false (Regs RX_STOP 0 0 0 true true)) = true
      /\ rx_fix (elaborate 24 false (Regs RX_STOP 0 0 0 true true)) = true).
Proof.
  split.
  - apply (handshake_written_only_leaving_idle 24 false
             (Regs RX_IDLE 3 0 0 true true)).
    split; reflexivity.
  - apply (handshake_written_only_leaving_idle 24 false
             (Regs RX_STOP 0 0 0 true true)).
    intros [H _]. discriminate H.
Defined.

End RXStep.

(** ** Framing errors *)

Module Recovery.

Import RX Testbench.

Lemma error_holds_one_command div c x :
  fsm (dut x) = RX_ERROR -> rx_fix (dut x) = false -> ~ asserts_fix c ->
  fsm (dut (exec div c x)) = RX_ERROR
  /\ rx_fix (dut (exec div c x)) = false.
Proof.
  intros Hf Hx Hc. destruct c as [b|b|b|]; cbn [exec dut fsm rx_fix].
  - now split.
  - now split.
  - split; [exact Hf|]. destruct b; [|reflexivity].
    exfalso. now apply Hc.
  - unfold elaborate. rewrite Hf, Hx. now split.
Qed.

Lemma error_holds div cs :
  forall x,
    fsm (dut x) = RX_ERROR -> rx_fix (dut x) = false ->
    Forall (fun c => ~ asserts_fix c) cs ->
    Forall (fun s => fsm s = RX_ERROR) (trace div cs x)
    /\ fsm (dut (run div cs x)) = RX_ERROR.
Proof.
  induction cs as [|c cs IH]; intros x Hf Hx Hcs.
  - split; [constructor | exact Hf].
  - inversion Hcs as [|c' cs' Hc Hcs']; subst.
    destruct (error_holds_one_command div c x Hf Hx Hc) as [Hf' Hx'].
    destruct (IH (exec div c x) Hf' Hx' Hcs') as [Ht Hr].
    split; [|exact Hr].
    cbn [trace]. destruct c; try exact Ht.
    constructor; [exact Hf' | exact Ht].
Qed.

(** C5.  In [RX_STOP], a strobe with the line low leads to [RX_ERROR].
    From [RX_ERROR] with [rx_fix] clear, whatever the testbench does with
    the line (and with [rx_ack]), as long as it never asserts [rx_fix],
    the state after every tick is [RX_ERROR]; asserting [rx_fix] and
    ticking once leads to [RX_IDLE]. *)
Theorem error_is_sticky (div : Z) :
  (forall s, fsm s = RX_STOP -> rx_strobe s = true ->
             fsm (elaborate div false s) = RX_ERROR)
  /\ (forall cs x,
         fsm (dut x) = RX_ERROR -> rx_fix (dut x) = false ->
         Forall (fun c => ~ asserts_fix c) cs ->
         Forall (fun s => fsm s = RX_ERROR) (trace div cs x)
         /\ fsm (dut (run div cs x)) = RX_ERROR)
  /\ (forall x,
         fsm (dut x) = RX_ERROR ->
         fsm (dut (run div [SetFix true; Tick] x)) = RX_IDLE).
Proof.
  split; [|split].
  - intros s Hf Hs. unfold elaborate. now rewrite Hf, Hs.
  - intros cs x. apply error_holds.
  - intros x Hf. cbn [run exec dut line fsm]. unfold elaborate.
    cbn [fsm rx_fix]. now rewrite Hf.
Qed.

Lemma error_is_sticky_witness :
  fsm (elaborate 24 false (Regs RX_STOP 0 0x24 0 false false)) = RX_ERROR
  /\ (Forall (fun s => fsm s = RX_ERROR)
             (trace 24 (uart_rx_byte 24 0x24)
                    (Sim false (Regs RX_ERROR 7 0x24 0 false false)))
      /\ fsm (dut (run 24 (uart_rx_byte 24 0x24)
                       (Sim false (Regs RX_ERROR 7 0x24 0 false false))))
         = RX_ERROR)
  /\ fsm (dut (run 24 [SetFix true; Tick]
                   (Sim false (Regs RX_ERROR 7 0x24 0 false false))))
     = RX_IDLE.
Proof.
  destruct (error_is_sticky 24) as [H1 [H2 H3]].
  split; [|split].
  - apply H1; reflexivity.
  - apply H2; [reflexivity | reflexivity |].
    apply Forall_forall. intros c Hin Hc. unfold asserts_fix in Hc. subst c.
    unfold uart_rx_byte, bit_period in Hin.
    repeat (cbn [flat_map seq app In] in Hin;
            try rewrite in_app_iff in Hin;
            destruct Hin as [Hin|Hin];
            [try discriminate Hin;
             try (apply repeat_spec in Hin; discriminate Hin) | ]).
    all: try contradiction.
  - apply H3; reflexivity.
Defined.

End Recovery.

(** ** Receiving one frame *)

Module Frame.

Import RX Testbench.

(** *** Runs and traces of command lists *)

Lemma run_app div cs1 cs2 x :
  run div (cs1 ++ cs2) x = run div cs2 (run div cs1 x).
Proof.
  revert x. induction cs1 as [|c cs1 IH]; intros x; [reflexivity|].
  cbn [app run]. apply IH.
Qed.

Lemma trace_app div cs1 cs2 x :
  trace div (cs1 ++ cs2) x
  = trace div cs1 x ++ trace div cs2 (run div cs1 x).
Proof.
  revert x. induction cs1 as [|c cs1 IH]; intros x; [reflexivity|].
  cbn [app run trace]. rewrite IH. now destruct c.
Qed.

Lemma repeat_add {A} (a : A) n m l :
  repeat a n ++ repeat a m ++ l = repeat a (n + m) ++ l.
Proof. now rewrite repeat_app, <- app_assoc. Qed.

(** *** Ticks on which the FSM only counts *)

Lemma with_count_twice c c' s : with_count c (with_count c' s) = with_count c s.
Proof. reflexivity. Qed.

Lemma with_count_same s : with_count (rx_count s) s = s.
Proof. now destruct s. Qed.

Lemma settled_step div b s :
  settled b s -> rx_count s <> 0 ->
  elaborate div b s = with_count (count_tick div (rx_count s)) s.
Proof.
  unfold settled, elaborate, rx_strobe. intros Hs Hc.
  destruct (Z.eqb_spec (rx_count s) 0) as [|_]; [contradiction|].
  destruct (fsm s).
  - now subst b.
  - reflexivity.
  - reflexivity.
  - reflexivity.
  - destruct Hs as [-> ->]. reflexivity.
  - now rewrite Hs.
Qed.

Lemma quiet_ticks div k :
  2 <= div ->
  forall s l,
    settled l s -> 1 <= rx_count s -> rx_count s + Z.of_nat k <= div - 1 ->
    run div (repeat Tick k) (Sim l s)
    = Sim l (with_count (rx_count s + Z.of_nat k) s)
    /\ map (with_count 0) (trace div (repeat Tick k) (Sim l s))
       = repeat (with_count 0 s) k.
Proof.
  intros Hdiv. induction k as [|k IH]; intros s l Hs Hc Hk.
  - cbn [repeat run trace map]. split; [|reflexivity].
    replace (rx_count s + Z.of_nat 0) with (rx_count s) by lia.
    now rewrite with_count_same.
  - cbn [repeat run trace map exec line dut].
    rewrite settled_step by (trivial; lia).
    rewrite Timing.count_tick_step by lia.
    destruct (IH (with_count (rx_count s + 1) s) l) as [Hr Ht].
    + exact Hs.
    + cbn [with_count rx_count]. lia.
    + cbn [with_count rx_count]. lia.
    + rewrite Hr, Ht. split.
      * rewrite with_count_twice. do 2 f_equal. cbn [with_count rx_count]. lia.
      * reflexivity.
Qed.

(** From a nonzero count to the strobe: the ticks up to the wrap-around. *)
Lemma to_strobe div s l :
  2 <= div -> settled l s -> 1 <= rx_count s <= div - 1 ->
  let k := Z.to_nat (div - rx_count s) in
  run div (repeat Tick k) (Sim l s) = Sim l (with_count 0 s)
  /\ map (with_count 0) (trace div (repeat Tick k) (Sim l s))
     = repeat (with_count 0 s) k.
Proof.
  intros Hdiv Hs Hc k.
  set (k' := Z.to_nat (div - 1 - rx_count s)).
  assert (Ek : k = (k' + 1)%nat) by (unfold k, k'; lia).
  destruct (quiet_ticks div k' Hdiv s l Hs) as [Hr Ht];
    [lia | unfold k'; lia |].
  rewrite Ek, repeat_app, run_app, trace_app, map_app, Hr, Ht.
  cbn [repeat run trace map exec line dut].
  rewrite settled_step by (trivial; cbn [with_count rx_count]; lia).
  cbn [with_count rx_count].
  replace (rx_count s + Z.of_nat k') with (div - 1) by (unfold k'; lia).
  rewrite Timing.count_tick_wrap. split.
  - reflexivity.
  - change (with_count 0 (with_count 0 (with_count (div - 1) s)))
      with (with_count 0 s).
    now rewrite repeat_app.
Qed.

(** *** The strobe tick *)

Lemma strobe_fires div b s :
  2 <= div -> timed s -> rx_ack s = false -> rx_fix s = false ->
  let nxt := elaborate div b (with_count 0 s) in
  rx_count nxt = 1 /\ settled b nxt.
Proof.
  intros Hdiv Ht Ha Hx nxt.
  assert (H1 : count_tick div 0 = 1) by (apply Timing.count_tick_step; lia).
  unfold nxt, elaborate, settled, rx_strobe.
  cbn [with_count fsm rx_count rx_buf rx_bit rx_ack rx_fix Z.eqb].
  destruct Ht as [-> | [-> | ->]].
  - now split.
  - split; [exact H1|]. now destruct (rx_bit s =? 7).
  - destruct b; split; trivial. now split.
Qed.

(** A timed state with count [c]: the ticks to the strobe, the strobe
    tick, and [k2] more ticks. *)
Lemma through_strobe div b s k2 :
  2 <= div -> timed s -> rx_ack s = false -> rx_fix s = false ->
  1 <= rx_count s <= div - 1 -> 1 + Z.of_nat k2 <= div - 1 ->
  let nxt := elaborate div b (with_count 0 s) in
  let k1 := Z.to_nat (div - rx_count s) in
  run div (repeat Tick (k1 + (1 + k2))) (Sim b s)
  = Sim b (with_count (1 + Z.of_nat k2) nxt)
  /\ map (with_count 0) (trace div (repeat Tick (k1 + (1 + k2))) (Sim b s))
     = repeat (with_count 0 s) k1 ++ repeat (with_count 0 nxt) (1 + k2).
Proof.
  intros Hdiv Ht Ha Hx Hc Hk2 nxt k1.
  assert (Hs : settled b s).
  { unfold settled. now destruct Ht as [-> | [-> | ->]]. }
  destruct (to_strobe div s b Hdiv Hs Hc) as [Hr1 Ht1]. fold k1 in Hr1, Ht1.
  destruct (strobe_fires div b s Hdiv Ht Ha Hx) as [Hn1 Hns]. fold nxt in Hn1, Hns.
  destruct (quiet_ticks div k2 Hdiv nxt b Hns) as [Hr2 Ht2]; [lia | lia |].
  rewrite !repeat_app, !run_app, !trace_app, !map_app, Hr1, Ht1.
  cbn [repeat run trace map exec line dut app]. fold nxt.
  rewrite Hr2, Ht2, Hn1. split; reflexivity.
Qed.

(** *** One bit period *)

Lemma half_bounds div : 4 <= div -> 2 <= div / 2 /\ 2 * (div / 2) <= div.
Proof.
  intros Hdiv. split.
  - apply Z.div_le_lower_bound; lia.
  - apply Z.mul_div_le. lia.
Qed.

Lemma sim_eta x : x = Sim (line x) (dut x).
Proof. now destruct x. Qed.

(** A bit period that starts in a timed state with the counter at
    [div // 2 - 1]: the strobe comes after [div - div // 2 + 1] ticks, and
    the period ends with the counter at [div // 2 - 1] again. *)
Lemma hold_period div b s l :
  4 <= div -> timed s -> rx_ack s = false -> rx_fix s = false ->
  rx_count s = div / 2 - 1 ->
  run div (hold div b) (Sim l s)
  = Sim b (with_count (div / 2 - 1) (elaborate div b (with_count 0 s)))
  /\ map (with_count 0) (trace div (hold div b) (Sim l s))
     = repeat (with_count 0 s) (Z.to_nat div - Z.to_nat (div / 2) + 1)
       ++ repeat (with_count 0 (elaborate div b (with_count 0 s)))
                 (Z.to_nat (div / 2) - 1).
Proof.
  intros Hdiv Ht Ha Hx Hc.
  destruct (half_bounds div Hdiv) as [Hh1 Hh2].
  set (k2 := (Z.to_nat (div / 2) - 2)%nat).
  destruct (through_strobe div b s k2) as [Hr Htr];
    try assumption; try (unfold k2; lia).
  assert (E : Z.to_nat div = (Z.to_nat (div - rx_count s) + (1 + k2))%nat)
    by (unfold k2; lia).
  unfold hold, bit_period. cbn [run trace exec dut].
  replace (repeat Tick (Z.to_nat div))
    with (repeat Tick (Z.to_nat (div - rx_count s) + (1 + k2)))
    by now rewrite <- E.
  rewrite Hr, Htr.
  replace (1 + Z.of_nat k2) with (div / 2 - 1) by (unfold k2; lia).
  replace (Z.to_nat (div - rx_count s))
    with (Z.to_nat div - Z.to_nat (div / 2) + 1)%nat by lia.
  replace (1 + k2)%nat with (Z.to_nat (div / 2) - 1)%nat by (unfold k2; lia).
  split; reflexivity.
Qed.

Lemma map_fsm_normal tr : map fsm (map (with_count 0) tr) = map fsm tr.
Proof. rewrite map_map. reflexivity. Qed.

(** The start bit: [RX_IDLE] sees the line low, loads the counter with
    [div // 2], and the strobe that follows moves [RX_START] to [RX_DATA]. *)
Lemma start_period div s l :
  4 <= div -> fsm s = RX_IDLE ->
  run div (hold div false) (Sim l s)
  = Sim false (Regs RX_DATA (div / 2 - 1) 0 0 false false)
  /\ map fsm (trace div (hold div false) (Sim l s))
     = repeat RX_START (1 + (Z.to_nat div - Z.to_nat (div / 2)))
       ++ repeat RX_DATA (Z.to_nat (div / 2) - 1).
Proof.
  intros Hdiv Hf.
  destruct (half_bounds div Hdiv) as [Hh1 Hh2].
  set (s1 := Regs RX_START (div / 2) 0 0 false false).
  set (k2 := (Z.to_nat (div / 2) - 2)%nat).
  destruct (through_strobe div false s1 k2) as [Hr Htr];
    try reflexivity; try (cbn [s1 rx_count]; unfold k2; lia).
  { left. reflexivity. }
  assert (E : Z.to_nat div
              = (1 + (Z.to_nat (div - rx_count s1) + (1 + k2)))%nat)
    by (cbn [s1 rx_count]; unfold k2; lia).
  assert (E1 : elaborate div false s = s1).
  { unfold elaborate. rewrite Hf. cbn [negb]. unfold s1, count_width.
    now rewrite Timing.trunc_count by lia. }
  rewrite <- map_fsm_normal.
  unfold hold, bit_period.
  replace (repeat Tick (Z.to_nat div))
    with (Tick :: repeat Tick (Z.to_nat (div - rx_count s1) + (1 + k2)))
    by now rewrite E.
  cbn [run trace map exec dut line].
  rewrite E1, Hr, Htr.
  replace (1 + Z.of_nat k2) with (div / 2 - 1) by (unfold k2; lia).
  replace (Z.to_nat (div - rx_count s1))
    with (Z.to_nat div - Z.to_nat (div / 2))%nat by (cbn [s1 rx_count]; lia).
  replace (1 + k2)%nat with (Z.to_nat (div / 2) - 1)%nat by (unfold k2; lia).
  split; [reflexivity|].
  rewrite map_app, !map_repeat. reflexivity.
Qed.

(** A data bit: the strobe latches the level [b] of the line. *)
Lemma data_period div b buf i l :
  4 <= div ->
  run div (hold div b) (Sim l (Regs RX_DATA (div / 2 - 1) buf i false false))
  = Sim b (Regs (if i =? 7 then RX_STOP else RX_DATA) (div / 2 - 1)
                (sample buf b) (trunc 3 (i + 1)) false false)
  /\ map fsm (trace div (hold div b)
                    (Sim l (Regs RX_DATA (div / 2 - 1) buf i false false)))
     = repeat RX_DATA (Z.to_nat div - Z.to_nat (div / 2) + 1)
       ++ repeat (if i =? 7 then RX_STOP else RX_DATA)
                 (Z.to_nat (div / 2) - 1).
Proof.
  intros Hdiv.
  destruct (hold_period div b (Regs RX_DATA (div / 2 - 1) buf i false false) l)
    as [Hr Htr]; try reflexivity; try assumption.
  { right. left. reflexivity. }
  rewrite <- map_fsm_normal, Hr, Htr. split; [reflexivity|].
  rewrite map_app, !map_repeat. reflexivity.
Qed.

(** The stop bit, line high: the strobe moves [RX_STOP] to [RX_FULL]. *)
Lemma stop_period div buf i l :
  4 <= div ->
  run div (hold div true) (Sim l (Regs RX_STOP (div / 2 - 1) buf i false false))
  = Sim true (Regs RX_FULL (div / 2 - 1) buf i false false)
  /\ map (with_count 0)
         (trace div (hold div true)
                (Sim l (Regs RX_STOP (div / 2 - 1) buf i false false)))
     = repeat (Regs RX_STOP 0 buf i false false)
              (Z.to_nat div - Z.to_nat (div / 2) + 1)
       ++ repeat (Regs RX_FULL 0 buf i false false) (Z.to_nat (div / 2) - 1).
Proof.
  intros Hdiv.
  destruct (hold_period div true (Regs RX_STOP (div / 2 - 1) buf i false false) l)
    as [Hr Htr]; try reflexivity; try assumption.
  { right. right. reflexivity. }
  rewrite Hr, Htr. split; reflexivity.
Qed.

(** *** The eight data bits *)

Lemma data_bits div :
  4 <= div ->
  forall bs b (i : nat) buf l,
    (i + S (length bs) = 8)%nat ->
    (exists l',
        run div (flat_map (hold div) (b :: bs))
            (Sim l (Regs RX_DATA (div / 2 - 1) buf (Z.of_nat i) false false))
        = Sim l' (Regs RX_STOP (div / 2 - 1) (fold_left sample (b :: bs) buf)
                       0 false false))
    /\ map fsm (trace div (flat_map (hold div) (b :: bs))
                      (Sim l (Regs RX_DATA (div / 2 - 1) buf (Z.of_nat i)
                                   false false)))
       = repeat RX_DATA (length bs * Z.to_nat div
                         + (Z.to_nat div - Z.to_nat (div / 2) + 1))
         ++ repeat RX_STOP (Z.to_nat (div / 2) - 1).
Proof.
  intros Hdiv. destruct (half_bounds div Hdiv) as [Hh1 Hh2].
  induction bs as [|b' bs IH]; intros b i buf l Hi.
  - cbn [length] in Hi.
    assert (E : Z.of_nat i = 7) by lia.
    destruct (data_period div b buf (Z.of_nat i) l Hdiv) as [Hr Ht].
    cbn [flat_map]. rewrite app_nil_r, Hr, Ht, E. split.
    + exists b. reflexivity.
    + reflexivity.
  - cbn [length] in Hi.
    change (flat_map (hold div) (b :: b' :: bs))
      with (hold div b ++ flat_map (hold div) (b' :: bs)).
    destruct (data_period div b buf (Z.of_nat i) l Hdiv) as [Hr Ht].
    rewrite run_app, trace_app, map_app, Hr, Ht.
    destruct (Z.eqb_spec (Z.of_nat i) 7) as [E|_]; [lia|].
    assert (E1 : trunc 3 (Z.of_nat i + 1) = Z.of_nat (S i)).
    { unfold trunc. change (2 ^ 3) with 8. rewrite Z.mod_small; lia. }
    rewrite E1.
    destruct (IH b' (S i) (sample buf b) b) as [[l' Hr'] Ht']; [lia|].
    rewrite Hr', Ht'. split.
    + exists l'. reflexivity.
    + rewrite <- app_assoc, !repeat_add. cbn [length].
      f_equal. f_equal. lia.
Qed.

(** Eight samples of the bits of a byte, least significant first, leave the
    byte in the buffer. *)
Lemma samples_decode val :
  0 <= val < 256 ->
  fold_left sample (map (line_bit val) (seq 0 8)) 0 = val.
Proof.
  intros Hv.
  assert (Hall : forallb
                   (fun n => fold_left sample
                               (map (line_bit (Z.of_nat n)) (seq 0 8)) 0
                             =? Z.of_nat n)
                   (seq 0 256) = true) by (vm_compute; reflexivity).
  rewrite forallb_forall in Hall.
  specialize (Hall (Z.to_nat val)).
  rewrite Z2Nat.id in Hall by lia.
  apply Z.eqb_eq, Hall, in_seq. lia.
Qed.

(** *** The frame *)

Lemma uart_rx_byte_phases div val :
  uart_rx_byte div val
  = hold div false
    ++ flat_map (hold div) (line_bit val 0 :: map (line_bit val) (seq 1 7))
    ++ hold div true.
Proof. reflexivity. Qed.

Lemma not_full_vacuous (Q : regs -> Prop) tr :
  ~ In RX_FULL (map fsm tr) ->
  Forall (fun s => fsm s = RX_FULL -> Q s) tr.
Proof.
  intros Hn. apply Forall_forall. intros s Hs Hf.
  exfalso. apply Hn. rewrite <- Hf. now apply in_map.
Qed.

Lemma not_in_two_runs (f g : fsm_state) n m :
  f <> RX_FULL -> g <> RX_FULL -> ~ In RX_FULL (repeat f n ++ repeat g m).
Proof.
  intros Hf Hg Hin. apply in_app_or in Hin.
  destruct Hin as [Hin|Hin]; apply repeat_spec in Hin; congruence.
Qed.

Lemma Forall_repeat_same {A} (P : A -> Prop) a n : P a -> Forall P (repeat a n).
Proof.
  intros Ha. apply Forall_forall. intros y Hy.
  now rewrite (repeat_spec _ _ _ Hy).
Qed.

(** C1, as stated, fails for the divisors 1, 2 and 3, which
    [clock_divider] accepts (for instance 200 Hz / 100 baud): with
    [div = 2] the first sample is taken in the period of data bit 1, the
    frame ends in [RX_STOP] without ever reaching [RX_FULL], and the byte
    the engine presents once the line has idled is not the byte sent. *)
Lemma frame_lost_at_divisor_2 :
  ClockDivider.clock_divider 200 100 (5 # 100) = ClockDivider.ret 2
  /\ ~ In RX_FULL (map fsm (trace 2 (uart_rx_byte 2 0x55) power_on))
  /\ fsm (dut (run 2 (uart_rx_byte 2 0x55) power_on)) = RX_STOP
  /\ fsm (dut (run 2 (uart_rx_byte 2 0x55 ++ bit_period 2) power_on))
     = RX_FULL
  /\ rx_buf (dut (run 2 (uart_rx_byte 2 0x55 ++ bit_period 2) power_on))
     = 0xAA.
Proof.
  split; [vm_compute; reflexivity|]. split; [|repeat split; vm_compute; reflexivity].
  vm_compute. intros H.
  repeat (destruct H as [H|H]; [discriminate H|]). exact H.
Qed.

(** C1, amended.  For every divisor [div >= 4] and every byte [B]: from
    reset, in [RX_IDLE], the frame that [uart_rx_byte] drives (line low for
    [div] ticks, the 8 bits of [B] least significant first for [div] ticks
    each, line high for [div] ticks) takes the engine through [RX_START],
    [RX_DATA] and [RX_STOP] into [RX_FULL], in that order and with nothing
    else in between; [RX_FULL] is entered before the frame ends, and
    whenever the state is [RX_FULL] the buffer holds [B]. *)
Theorem frame_decodes (div val : Z) (l : bool) :
  4 <= div -> 0 <= val < 256 ->
  map fsm (trace div (uart_rx_byte div val) (Sim l reset))
  = repeat RX_START (1 + (Z.to_nat div - Z.to_nat (div / 2)))
    ++ repeat RX_DATA (8 * Z.to_nat div)
    ++ repeat RX_STOP (Z.to_nat div)
    ++ repeat RX_FULL (Z.to_nat (div / 2) - 1)
  /\ (1 <= Z.to_nat (div / 2) - 1)%nat
  /\ Forall (fun s => fsm s = RX_FULL -> rx_buf s = val)
            (trace div (uart_rx_byte div val) (Sim l reset))
  /\ fsm (dut (run div (uart_rx_byte div val) (Sim l reset))) = RX_FULL
  /\ rx_buf (dut (run div (uart_rx_byte div val) (Sim l reset))) = val.
Proof.
  intros Hdiv Hv.
  destruct (half_bounds div Hdiv) as [Hh1 Hh2].
  destruct (start_period div reset l Hdiv eq_refl) as [Hr0 Ht0].
  destruct (data_bits div Hdiv (map (line_bit val) (seq 1 7))
                      (line_bit val 0) 0%nat 0 false eq_refl)
    as [[l1 Hr1] Ht1].
  change (fold_left sample (line_bit val 0 :: map (line_bit val) (seq 1 7)) 0)
    with (fold_left sample (map (line_bit val) (seq 0 8)) 0) in Hr1.
  rewrite (samples_decode val Hv) in Hr1.
  change (length (map (line_bit val) (seq 1 7))) with 7%nat in Ht1.
  change (Z.of_nat 0) with 0 in Hr1, Ht1.
  destruct (stop_period div val 0 l1 Hdiv) as [Hr2 Ht2].
  rewrite uart_rx_byte_phases, !run_app, !trace_app, Hr0, Hr1, Hr2.
  split; [|split; [|split; [|split]]].
  - rewrite !map_app, Ht0, Ht1, <- map_fsm_normal, Ht2.
    rewrite map_app, !map_repeat. cbn [fsm].
    rewrite <- !app_assoc, !repeat_add.
    repeat (f_equal; try lia).
  - lia.
  - apply Forall_app. split; [|apply Forall_app; split].
    + apply not_full_vacuous. rewrite Ht0.
      apply not_in_two_runs; discriminate.
    + apply not_full_vacuous. rewrite Ht1.
      apply not_in_two_runs; discriminate.
    + change (Forall (fun s => (fun s' => fsm s' = RX_FULL -> rx_buf s' = val)
                                 (with_count 0 s))
                     (trace div (hold div true)
                            (Sim l1 (Regs RX_STOP (div / 2 - 1) val 0
                                          false false)))).
      apply Forall_map. rewrite Ht2.
      apply Forall_app. split; apply Forall_repeat_same; intros _; reflexivity.
  - reflexivity.
  - reflexivity.
Qed.

Lemma frame_decodes_witness :
  map fsm (trace 24 (uart_rx_byte 24 0xAF) power_on)
  = repeat RX_START (1 + (Z.to_nat 24 - Z.to_nat (24 / 2)))
    ++ repeat RX_DATA (8 * Z.to_nat 24)
    ++ repeat RX_STOP (Z.to_nat 24)
    ++ repeat RX_FULL (Z.to_nat (24 / 2) - 1)
  /\ (1 <= Z.to_nat (24 / 2) - 1)%nat
  /\ Forall (fun s => fsm s = RX_FULL -> rx_buf s = 0xAF)
            (trace 24 (uart_rx_byte 24 0xAF) power_on)
  /\ fsm (dut (run 24 (uart_rx_byte 24 0xAF) power_on)) = RX_FULL
  /\ rx_buf (dut (run 24 (uart_rx_byte 24 0xAF) power_on)) = 0xAF.
Proof.
  apply (frame_decodes 24 0xAF false).
  - vm_compute; discriminate.
  - split; [vm_compute; discriminate | reflexivity].
Defined.

End Frame.

(** ** The repository's own configuration, replayed *)

Module Replay.

Import RX Testbench.

(** [UART_RX( 24000000, 1000000 )] and [UART_RX( 24000000, 9600 )]. *)
Example divider_24MHz_1Mbaud :
  ClockDivider.clock_divider 24000000 1000000 (5 # 100) = ClockDivider.ret 24.
Proof. vm_compute. reflexivity. Qed.

Example divider_24MHz_9600baud :
  ClockDivider.clock_divider 24000000 9600 (5 # 100) = ClockDivider.ret 2500.
Proof. vm_compute. reflexivity. Qed.

(** A divisor whose rate is too far off: 199 Hz for 100 baud gives 1. *)
Example divider_error_too_high :
  ClockDivider.excessive_timing_error
    (ClockDivider.clock_divider 199 100 (5 # 100)).
Proof. eexists _, _. vm_compute. reflexivity. Qed.

(** [uart_rx_byte( uart_rx, 0xAF )] at the testbench's divisor. *)
Example rx_0xAF_at_24 :
  dut (run 24 (uart_rx_byte 24 0xAF) power_on)
  = Regs RX_FULL 11 0xAF 0 false false.
Proof. vm_compute. reflexivity. Qed.

(** A second byte sent while the first is unclaimed is an overrun. *)
Example rx_overrun_at_24 :
  fsm (dut (run 24 (uart_rx_byte 24 0xAF ++ uart_rx_byte 24 0x42) power_on))
  = RX_ERROR.
Proof. vm_compute. reflexivity. Qed.

(** After [rx_fix] the engine decodes the next frame. *)
Example rx_fix_then_0x24_at_24 :
  dut (run 24 (uart_rx_byte 24 0xAF ++ uart_rx_byte 24 0x42
               ++ SetFix true :: SetRx true :: Tick :: uart_rx_byte 24 0x24)
           power_on)
  = Regs RX_FULL 11 0x24 0 false false.
Proof. vm_compute. reflexivity. Qed.

End Replay.

(** ** More on clock_divider *)

Module ClockDividerMore.

Import ClockDivider.















End ClockDividerMore.

(** ** Invariants of the receiver *)

Module RXInvariants.

Import RX Testbench RXShape.

Lemma count_tick_range div c :
  1 <= div -> 0 <= c < div -> 0 <= count_tick div c < div.
Proof.
  intros Hdiv Hc. rewrite Timing.count_tick_mod by lia.
  apply Z.mod_pos_bound. lia.
Qed.

Lemma preload_range div :
  1 <= div ->
  0 <= trunc (count_width div) (div / 2) < div.
Proof.
  intros Hdiv.
  assert (0 <= div / 2 < div).
  { split; [apply Z.div_pos; lia | apply Z.div_lt_upper_bound; lia]. }
  unfold count_width. rewrite Timing.trunc_count; lia.
Qed.

Lemma trunc_range w x : 0 <= w -> 0 <= trunc w x < 2 ^ w.
Proof.
  intros Hw. unfold trunc. apply Z.mod_pos_bound.
  apply Z.pow_pos_nonneg; lia.
Qed.

Lemma elaborate_in_range div rx s :
  1 <= div -> in_range div s -> in_range div (elaborate div rx s).
Proof.
  intros Hdiv (Hc & Hb & Hi).
  pose proof (count_tick_range div (rx_count s) Hdiv Hc) as Hc'.
  pose proof (preload_range div Hdiv) as Hp.
  pose proof (trunc_range 8 (shift_in (rx_buf s) rx) ltac:(lia)) as Hb'.
  pose proof (trunc_range 3 (rx_bit s + 1) ltac:(lia)) as Hi'.
  change (2 ^ 8) with 256 in Hb'. change (2 ^ 3) with 8 in Hi'.
  unfold in_range, elaborate.
  destruct (fsm s), rx, (rx_strobe s), (rx_ack s), (rx_fix s);
    cbn [negb with_fsm with_count fsm rx_count rx_buf rx_bit rx_ack rx_fix];
    repeat split; lia.
Qed.

(** The registers never leave the ranges of their signals: for a divisor
    [div >= 1], one clock edge takes registers with [0 <= rx_count < div],
    [rx_buf] below 256 and [rx_bit] below 8 to registers with the same
    bounds, and so does everything a testbench can do from reset.  In
    particular the counter never reaches the point where the width of its
    signal would cut it. *)
Theorem registers_stay_in_range (div : Z) :
  1 <= div ->
  (forall rx s, in_range div s -> in_range div (elaborate div rx s))
  /\ (forall cs, in_range div (dut (run div cs power_on)))
  /\ (forall cs, Forall (in_range div) (trace div cs power_on)).
Proof.
  intros Hdiv.
  assert (Hexec : forall c x, in_range div (dut x) ->
                              in_range div (dut (exec div c x))).
  { intros c x Hx. destruct c; cbn [exec dut]; try exact Hx.
    now apply elaborate_in_range. }
  assert (H0 : in_range div (dut power_on)).
  { unfold in_range. cbn. lia. }
  split; [|split].
  - intros rx s. now apply elaborate_in_range.
  - intros cs. generalize power_on H0.
    induction cs as [|c cs IH]; intros x Hx; [exact Hx|].
    cbn [run]. apply IH, Hexec, Hx.
  - intros cs. generalize power_on H0.
    induction cs as [|c cs IH]; intros x Hx; [constructor|].
    cbn [trace]. pose proof (Hexec c x Hx) as Hx'.
    destruct c; try (apply IH; exact Hx').
    constructor; [exact Hx' | apply IH; exact Hx'].
Qed.

Lemma registers_stay_in_range_witness :
  in_range 24 (dut (run 24 (uart_rx_byte 24 0xAF) power_on))
  /\ Forall (in_range 24) (trace 24 (uart_rx_byte 24 0x42) power_on).
Proof.
  destruct (registers_stay_in_range 24) as (_ & H2 & H3).
  - vm_compute; discriminate.
  - split; [apply H2 | apply H3].
Defined.

(** The buffer and the bit index are written on two kinds of edges only:
    leaving [RX_IDLE] (both cleared) and a strobe in [RX_DATA].  On every
    other edge, in every state, both keep their value. *)
Theorem data_registers_written_only (div : Z) (rx : bool) (s : regs) :
  (fsm s = RX_IDLE /\ rx = false ->
   rx_buf (elaborate div rx s) = 0 /\ rx_bit (elaborate div rx s) = 0)
  /\ (~ writes_data rx s ->
      rx_buf (elaborate div rx s) = rx_buf s
      /\ rx_bit (elaborate div rx s) = rx_bit s).
Proof.
  split.
  - intros [Hf ->]. unfold elaborate. rewrite Hf. split; reflexivity.
  - intros Hn. unfold writes_data in Hn. unfold elaborate.
    destruct (fsm s) eqn:Hf.
    + destruct rx; [split; reflexivity|]. exfalso. apply Hn. left. now split.
    + destruct (rx_strobe s); split; reflexivity.
    + destruct (rx_strobe s) eqn:Hs; [|split; reflexivity].
      exfalso. apply Hn. right. now split.
    + destruct (rx_strobe s), rx; split; reflexivity.
    + destruct (rx_ack s), rx; split; reflexivity.
    + destruct (rx_fix s); split; reflexivity.
Qed.

Lemma data_registers_written_only_witness :
  (rx_buf (elaborate 24 false (Regs RX_IDLE 3 0xAF 5 true true)) = 0
   /\ rx_bit (elaborate 24 false (Regs RX_IDLE 3 0xAF 5 true true)) = 0)
  /\ (rx_buf (elaborate 24 false (Regs RX_FULL 0 0xAF 5 true true)) = 0xAF
      /\ rx_bit (elaborate 24 false (Regs RX_FULL 0 0xAF 5 true true)) = 5).
Proof.
  split.
  - apply (data_registers_written_only 24 false
             (Regs RX_IDLE 3 0xAF 5 true true)).
    split; reflexivity.
  - apply (data_registers_written_only 24 false
             (Regs RX_FULL 0 0xAF 5 true true)).
    intros [[H _]|[H _]]; discriminate H.
Defined.

(** The transition graph: one clock edge leaves the FSM where it is or
    moves it along one of the [m.next] arrows of its state, and the three
    timed states do not move without a strobe. *)
Theorem next_state_is_a_successor (div : Z) (rx : bool) (s : regs) :
  In (fsm (elaborate div rx s)) (successors (fsm s))
  /\ (timed s -> rx_strobe s = false -> fsm (elaborate div rx s) = fsm s).
Proof.
  split.
  - destruct s as [f c b i a x]. unfold elaborate, rx_strobe.
    cbn [fsm rx_count rx_buf rx_bit rx_ack rx_fix].
    destruct f, rx, (c =? 0), a, x, (i =? 7);
      cbn [negb with_fsm with_count fsm successors In]; tauto.
  - destruct s as [f c b i a x]. unfold timed, elaborate.
    cbn [fsm]. intros Ht Hs. rewrite Hs.
    destruct Ht as [-> | [-> | ->]]; reflexivity.
Qed.

Lemma next_state_is_a_successor_witness :
  In (fsm (elaborate 24 true (Regs RX_STOP 0 0xAF 0 false false)))
     (successors RX_STOP)
  /\ fsm (elaborate 24 true (Regs RX_STOP 5 0xAF 0 false false)) = RX_STOP.
Proof.
  split.
  - apply (next_state_is_a_successor 24 true
             (Regs RX_STOP 0 0xAF 0 false false)).
  - apply (next_state_is_a_successor 24 true
             (Regs RX_STOP 5 0xAF 0 false false)).
    + right. right. reflexivity.
    + reflexivity.
Defined.

End RXInvariants.

(** ** Frames in every situation the handshake allows *)

Module Frames.

Import RX Testbench.

(** *** Bit periods at any phase of the counter *)

Lemma hold_period_at div b s l :
  2 <= div -> timed s -> rx_ack s = false -> rx_fix s = false ->
  1 <= rx_count s <= div - 1 ->
  run div (hold div b) (Sim l s)
  = Sim b (with_count (rx_count s) (elaborate div b (with_count 0 s))).
Proof.
  intros Hdiv Ht Ha Hx Hc.
  set (k2 := Z.to_nat (rx_count s - 1)).
  destruct (Frame.through_strobe div b s k2) as [Hr _];
    try assumption; try (unfold k2; lia).
  assert (E : Z.to_nat div = (Z.to_nat (div - rx_count s) + (1 + k2))%nat)
    by (unfold k2; lia).
  unfold hold, bit_period. cbn [run exec dut].
  replace (repeat Tick (Z.to_nat div))
    with (repeat Tick (Z.to_nat (div - rx_count s) + (1 + k2)))
    by now rewrite <- E.
  rewrite Hr.
  replace (1 + Z.of_nat k2) with (rx_count s) by (unfold k2; lia).
  reflexivity.
Qed.

Lemma data_period_at div c b buf i l :
  2 <= div -> 1 <= c <= div - 1 ->
  run div (hold div b) (Sim l (Regs RX_DATA c buf i false false))
  = Sim b (Regs (if i =? 7 then RX_STOP else RX_DATA) c
                (sample buf b) (trunc 3 (i + 1)) false false).
Proof.
  intros Hdiv Hc.
  rewrite hold_period_at; try reflexivity; try assumption.
  right. left. reflexivity.
Qed.

Lemma stop_period_at div c b buf i l :
  2 <= div -> 1 <= c <= div - 1 ->
  run div (hold div b) (Sim l (Regs RX_STOP c buf i false false))
  = Sim b (Regs (if b then RX_FULL else RX_ERROR) c buf i false false).
Proof.
  intros Hdiv Hc.
  rewrite hold_period_at; try reflexivity; try assumption.
  - now destruct b.
  - right. right. reflexivity.
Qed.

Lemma data_bits_at div c :
  2 <= div -> 1 <= c <= div - 1 ->
  forall bs b (i : nat) buf l,
    (i + S (length bs) = 8)%nat ->
    exists l',
      run div (flat_map (hold div) (b :: bs))
          (Sim l (Regs RX_DATA c buf (Z.of_nat i) false false))
      = Sim l' (Regs RX_STOP c (fold_left sample (b :: bs) buf) 0 false false).
Proof.
  intros Hdiv Hc.
  induction bs as [|b' bs IH]; intros b i buf l Hi.
  - cbn [length] in Hi.
    assert (E : Z.of_nat i = 7) by lia.
    cbn [flat_map]. rewrite app_nil_r, data_period_at, E by assumption.
    exists b. reflexivity.
  - cbn [length] in Hi.
    change (flat_map (hold div) (b :: b' :: bs))
      with (hold div b ++ flat_map (hold div) (b' :: bs)).
    rewrite Frame.run_app, data_period_at by assumption.
    destruct (Z.eqb_spec (Z.of_nat i) 7) as [E|_]; [lia|].
    assert (E1 : trunc 3 (Z.of_nat i + 1) = Z.of_nat (S i)).
    { unfold trunc. change (2 ^ 3) with 8. rewrite Z.mod_small; lia. }
    rewrite E1.
    destruct (IH b' (S i) (sample buf b) b) as [l' Hr']; [lia|].
    exists l'. exact Hr'.
Qed.

(** The eight data bits of a byte and the stop bit, from [RX_DATA] with a
    clean buffer, at any phase [c] of the counter. *)
Lemma frame_body div c val stop l :
  2 <= div -> 1 <= c <= div - 1 -> 0 <= val < 256 ->
  run div (flat_map (hold div)
                    (line_bit val 0 :: map (line_bit val) (seq 1 7))
           ++ hold div stop)
      (Sim l (Regs RX_DATA c 0 0 false false))
  = Sim stop (Regs (if stop then RX_FULL else RX_ERROR) c val 0 false false).
Proof.
  intros Hdiv Hc Hv.
  destruct (data_bits_at div c Hdiv Hc (map (line_bit val) (seq 1 7))
                         (line_bit val 0) 0%nat 0 l eq_refl) as [l' Hr].
  change (fold_left sample (line_bit val 0 :: map (line_bit val) (seq 1 7)) 0)
    with (fold_left sample (map (line_bit val) (seq 0 8)) 0) in Hr.
  rewrite (Frame.samples_decode val Hv) in Hr.
  change (Z.of_nat 0) with 0 in Hr.
  rewrite Frame.run_app, Hr. now apply stop_period_at.
Qed.

(** *** A frame arriving in [RX_IDLE] *)

Lemma idle_frame div val l s :
  4 <= div -> 0 <= val < 256 -> fsm s = RX_IDLE ->
  run div (uart_rx_byte div val) (Sim l s)
  = Sim true (Regs RX_FULL (div / 2 - 1) val 0 false false).
Proof.
  intros Hdiv Hv Hf.
  destruct (Frame.half_bounds div Hdiv) as [Hh1 Hh2].
  destruct (Frame.start_period div s l Hdiv Hf) as [Hr0 _].
  rewrite Frame.uart_rx_byte_phases, Frame.run_app, Hr0.
  apply (frame_body div (div / 2 - 1) val true false); lia.
Qed.

(** Whatever the registers hold when the start bit arrives in [RX_IDLE]
    (an old byte, a bit index, handshake signals left set, any counter
    value), for [div >= 4] the frame of [uart_rx_byte] ends in [RX_FULL]
    with exactly the byte sent, the bit index back at 0 and both handshake
    signals clear: nothing of the previous contents leaks into the result. *)
Theorem frame_from_any_idle_state (div val : Z) (l : bool) (s : regs) :
  4 <= div -> 0 <= val < 256 -> fsm s = RX_IDLE ->
  run div (uart_rx_byte div val) (Sim l s)
  = Sim true (Regs RX_FULL (div / 2 - 1) val 0 false false).
Proof. apply idle_frame. Qed.

Lemma frame_from_any_idle_state_witness :
  run 24 (uart_rx_byte 24 0x42) (Sim true (Regs RX_IDLE 17 0xAF 5 true true))
  = Sim true (Regs RX_FULL (24 / 2 - 1) 0x42 0 false false).
Proof.
  apply (frame_from_any_idle_state 24 0x42 true
           (Regs RX_IDLE 17 0xAF 5 true true)).
  - vm_compute; discriminate.
  - split; [vm_compute; discriminate | reflexivity].
  - reflexivity.
Defined.

(** A frame whose stop bit is held low: for [div >= 4], from [RX_IDLE], the
    start bit, the eight data bits and a low stop period end in [RX_ERROR];
    the byte has been shifted into the buffer all the same. *)
Theorem missing_stop_bit_is_an_error (div val : Z) (l : bool) (s : regs) :
  4 <= div -> 0 <= val < 256 -> fsm s = RX_IDLE ->
  run div (hold div false
           ++ flat_map (hold div) (map (line_bit val) (seq 0 8))
           ++ hold div false)
      (Sim l s)
  = Sim false (Regs RX_ERROR (div / 2 - 1) val 0 false false).
Proof.
  intros Hdiv Hv Hf.
  destruct (Frame.half_bounds div Hdiv) as [Hh1 Hh2].
  destruct (Frame.start_period div s l Hdiv Hf) as [Hr0 _].
  rewrite Frame.run_app, Hr0.
  apply (frame_body div (div / 2 - 1) val false false); lia.
Qed.

Lemma missing_stop_bit_is_an_error_witness :
  run 24 (hold 24 false
          ++ flat_map (hold 24) (map (line_bit 0x24) (seq 0 8))
          ++ hold 24 false)
      power_on
  = Sim false (Regs RX_ERROR (24 / 2 - 1) 0x24 0 false false).
Proof.
  apply (missing_stop_bit_is_an_error 24 0x24 false reset).
  - vm_compute; discriminate.
  - split; [vm_compute; discriminate | reflexivity].
  - reflexivity.
Defined.

(** *** States that only count *)




(** *** [RX_ERROR] freezes everything but the counter *)

Lemma error_frozen div cs :
  forall x,
    fsm (dut x) = RX_ERROR -> rx_fix (dut x) = false ->
    Forall (fun c => ~ asserts_fix c) cs ->
    fsm (dut (run div cs x)) = RX_ERROR
    /\ rx_fix (dut (run div cs x)) = false
    /\ rx_buf (dut (run div cs x)) = rx_buf (dut x)
    /\ rx_bit (dut (run div cs x)) = rx_bit (dut x).
Proof.
  induction cs as [|c cs IH]; intros x Hf Hx Hcs.
  - now repeat split.
  - inversion Hcs as [|c' cs' Hc Hcs']; subst.
    assert (H1 : fsm (dut (exec div c x)) = RX_ERROR
                 /\ rx_fix (dut (exec div c x)) = false
                 /\ rx_buf (dut (exec div c x)) = rx_buf (dut x)
                 /\ rx_bit (dut (exec div c x)) = rx_bit (dut x)).
    { destruct c as [b|b|b|]; cbn [exec dut fsm rx_fix rx_buf rx_bit].
      - now repeat split.
      - now repeat split.
      - repeat split; try assumption. destruct b; [|reflexivity].
        exfalso. now apply Hc.
      - unfold elaborate. rewrite Hf, Hx. now repeat split. }
    destruct H1 as (Hf' & Hx' & Hb' & Hi').
    destruct (IH (exec div c x) Hf' Hx' Hcs') as (Hf2 & Hx2 & Hb2 & Hi2).
    cbn [run]. repeat split; congruence.
Qed.

(** In [RX_ERROR] with [rx_fix] clear, whatever the testbench does short
    of asserting [rx_fix], the buffer and the bit index keep their values,
    [rx_fix] stays clear and the state stays [RX_ERROR]: no data is read or
    written while the error is pending. *)
Theorem error_freezes_data (div : Z) (cs : list command) (x : sim) :
  fsm (dut x) = RX_ERROR -> rx_fix (dut x) = false ->
  Forall (fun c => ~ asserts_fix c) cs ->
  fsm (dut (run div cs x)) = RX_ERROR
  /\ rx_fix (dut (run div cs x)) = false
  /\ rx_buf (dut (run div cs x)) = rx_buf (dut x)
  /\ rx_bit (dut (run div cs x)) = rx_bit (dut x).
Proof. apply error_frozen. Qed.

Lemma error_freezes_data_witness :
  let x := Sim true (Regs RX_ERROR 3 0x42 0 false false) in
  let cs := [SetRx false; Tick; SetAck true; Tick; SetRx true; Tick] in
  fsm (dut (run 24 cs x)) = RX_ERROR
  /\ rx_fix (dut (run 24 cs x)) = false
  /\ rx_buf (dut (run 24 cs x)) = rx_buf (dut x)
  /\ rx_bit (dut (run 24 cs x)) = rx_bit (dut x).
Proof.
  apply (error_freezes_data 24
           [SetRx false; Tick; SetAck true; Tick; SetRx true; Tick]
           (Sim true (Regs RX_ERROR 3 0x42 0 false false))).
  - reflexivity.
  - reflexivity.
  - repeat constructor; intros H; discriminate H.
Defined.

Lemma uart_rx_byte_never_fixes div val :
  Forall (fun c => ~ asserts_fix c) (uart_rx_byte div val).
Proof.
  assert (Hh : forall b, Forall (fun c => ~ asserts_fix c) (hold div b)).
  { intros b. unfold hold, bit_period. constructor; [discriminate|].
    apply Frame.Forall_repeat_same. discriminate. }
  rewrite Frame.uart_rx_byte_phases.
  apply Forall_app. split; [apply Hh|].
  apply Forall_app. split; [|apply Hh].
  apply Forall_flat_map. apply Forall_forall. intros b _. apply Hh.
Qed.

(** *** A frame arriving in [RX_FULL] *)

Lemma overrun_frame div val l s :
  1 <= div ->
  fsm s = RX_FULL -> rx_ack s = false -> rx_fix s = false ->
  Forall (fun s' => fsm s' = RX_ERROR)
         (trace div (uart_rx_byte div val) (Sim l s))
  /\ fsm (dut (run div (uart_rx_byte div val) (Sim l s))) = RX_ERROR
  /\ rx_fix (dut (run div (uart_rx_byte div val) (Sim l s))) = false
  /\ rx_buf (dut (run div (uart_rx_byte div val) (Sim l s))) = rx_buf s
  /\ rx_bit (dut (run div (uart_rx_byte div val) (Sim l s))) = rx_bit s.
Proof.
  intros Hdiv Hf Ha Hx.
  assert (Ecs : exists cs',
             uart_rx_byte div val = SetRx false :: Tick :: cs'
             /\ Forall (fun c => ~ asserts_fix c) cs').
  { pose proof (uart_rx_byte_never_fixes div val) as Hn.
    unfold uart_rx_byte in *.
    unfold bit_period at 1 in Hn. unfold bit_period at 1.
    destruct (Z.to_nat div) as [|n] eqn:En; [lia|].
    cbn [repeat app] in *. eexists. split; [reflexivity|].
    inversion Hn as [|c1 cs1 _ Hn1]; subst.
    inversion Hn1 as [|c2 cs2 _ Hn2]; subst. exact Hn2. }
  destruct Ecs as (cs' & -> & Hn2).
  cbn [run trace].
  set (x1 := exec div Tick (exec div (SetRx false) (Sim l s))).
  assert (E1 : dut x1 = with_fsm RX_ERROR
                          (with_count (count_tick div (rx_count s)) s)).
  { unfold x1. cbn [exec dut line]. unfold elaborate. now rewrite Hf, Ha. }
  assert (Hf1 : fsm (dut x1) = RX_ERROR) by now rewrite E1.
  assert (Hx1 : rx_fix (dut x1) = false) by (rewrite E1; exact Hx).
  destruct (Recovery.error_holds div _ x1 Hf1 Hx1 Hn2) as [Ht _].
  destruct (error_frozen div _ x1 Hf1 Hx1 Hn2) as (Hf2 & Hx2 & Hb2 & Hi2).
  split; [|repeat split].
  - constructor; [exact Hf1 | exact Ht].
  - exact Hf2.
  - exact Hx2.
  - rewrite Hb2, E1. reflexivity.
  - rewrite Hi2, E1. reflexivity.
Qed.

(** Overrun, for every divisor [div >= 1]: a frame that arrives while
    [RX_FULL] is unacknowledged puts the engine in [RX_ERROR] on its first
    tick and keeps it there on every tick of the frame; the unclaimed byte
    is still in the buffer at the end and none of the new bits is. *)
Theorem overrun_keeps_the_old_byte (div val : Z) (l : bool) (s : regs) :
  1 <= div ->
  fsm s = RX_FULL -> rx_ack s = false -> rx_fix s = false ->
  Forall (fun s' => fsm s' = RX_ERROR)
         (trace div (uart_rx_byte div val) (Sim l s))
  /\ fsm (dut (run div (uart_rx_byte div val) (Sim l s))) = RX_ERROR
  /\ rx_fix (dut (run div (uart_rx_byte div val) (Sim l s))) = false
  /\ rx_buf (dut (run div (uart_rx_byte div val) (Sim l s))) = rx_buf s
  /\ rx_bit (dut (run div (uart_rx_byte div val) (Sim l s))) = rx_bit s.
Proof. apply overrun_frame. Qed.

Lemma overrun_keeps_the_old_byte_witness :
  let s := Regs RX_FULL 11 0x42 0 false false in
  Forall (fun s' => fsm s' = RX_ERROR)
         (trace 24 (uart_rx_byte 24 0x24) (Sim true s))
  /\ fsm (dut (run 24 (uart_rx_byte 24 0x24) (Sim true s))) = RX_ERROR
  /\ rx_fix (dut (run 24 (uart_rx_byte 24 0x24) (Sim true s))) = false
  /\ rx_buf (dut (run 24 (uart_rx_byte 24 0x24) (Sim true s))) = rx_buf s
  /\ rx_bit (dut (run 24 (uart_rx_byte 24 0x24) (Sim true s))) = rx_bit s.
Proof.
  apply (overrun_keeps_the_old_byte 24 0x24 true
           (Regs RX_FULL 11 0x42 0 false false)).
  - vm_compute; discriminate.
  - reflexivity.
  - reflexivity.
  - reflexivity.
Defined.

(** *** A frame arriving with a handshake pending *)

(** The start bit arrives while [RX_FULL] sees [rx_ack] (or [RX_ERROR]
    sees [rx_fix]): the first tick goes to [RX_IDLE], the second one to
    [RX_START], and the sampling point moves one tick later. *)
Lemma late_start div s l :
  6 <= div ->
  (fsm s = RX_FULL /\ rx_ack s = true)
  \/ (fsm s = RX_ERROR /\ rx_fix s = true) ->
  run div (hold div false) (Sim l s)
  = Sim false (Regs RX_DATA (div / 2 - 2) 0 0 false false).
Proof.
  intros Hdiv Hp.
  assert (Hh1 : 3 <= div / 2) by (apply Z.div_le_lower_bound; lia).
  assert (Hh2 : 2 * (div / 2) <= div) by (apply Z.mul_div_le; lia).
  set (s1 := Regs RX_START (div / 2) 0 0 false false).
  set (k2 := Z.to_nat (div / 2 - 3)).
  destruct (Frame.through_strobe div false s1 k2) as [Hr _];
    try reflexivity; try (cbn [s1 rx_count]; unfold k2; lia).
  { left. reflexivity. }
  assert (E : Z.to_nat div
              = (2 + (Z.to_nat (div - rx_count s1) + (1 + k2)))%nat)
    by (cbn [s1 rx_count]; unfold k2; lia).
  assert (E0 : fsm (elaborate div false s) = RX_IDLE).
  { unfold elaborate. destruct Hp as [[-> ->] | [-> ->]]; reflexivity. }
  assert (E1 : elaborate div false (elaborate div false s) = s1).
  { unfold elaborate at 1. rewrite E0. cbn [negb]. unfold s1, count_width.
    now rewrite Timing.trunc_count by lia. }
  unfold hold, bit_period.
  replace (repeat Tick (Z.to_nat div))
    with (Tick :: Tick
          :: repeat Tick (Z.to_nat (div - rx_count s1) + (1 + k2)))
    by now rewrite E.
  cbn [run exec dut line].
  rewrite E1, Hr.
  replace (1 + Z.of_nat k2) with (div / 2 - 2) by (unfold k2; lia).
  reflexivity.
Qed.

Lemma pending_frame div val l s :
  6 <= div -> 0 <= val < 256 ->
  (fsm s = RX_FULL /\ rx_ack s = true)
  \/ (fsm s = RX_ERROR /\ rx_fix s = true) ->
  run div (uart_rx_byte div val) (Sim l s)
  = Sim true (Regs RX_FULL (div / 2 - 2) val 0 false false).
Proof.
  intros Hdiv Hv Hp.
  assert (Hh1 : 3 <= div / 2) by (apply Z.div_le_lower_bound; lia).
  assert (Hh2 : 2 * (div / 2) <= div) by (apply Z.mul_div_le; lia).
  rewrite Frame.uart_rx_byte_phases, Frame.run_app, late_start by assumption.
  apply (frame_body div (div / 2 - 2) val true false); lia.
Qed.

(** A frame that starts on the very tick on which a pending [rx_ack]
    releases [RX_FULL] (or a pending [rx_fix] releases [RX_ERROR]) is
    detected one tick late; for [div >= 6] it is still decoded: the frame
    ends in [RX_FULL] with the byte sent and both handshake signals
    cleared. *)
Theorem frame_after_pending_handshake (div val : Z) (l : bool) (s : regs) :
  6 <= div -> 0 <= val < 256 ->
  (fsm s = RX_FULL /\ rx_ack s = true)
  \/ (fsm s = RX_ERROR /\ rx_fix s = true) ->
  run div (uart_rx_byte div val) (Sim l s)
  = Sim true (Regs RX_FULL (div / 2 - 2) val 0 false false).
Proof. apply pending_frame. Qed.

Lemma frame_after_pending_handshake_witness :
  run 24 (uart_rx_byte 24 0x42) (Sim true (Regs RX_FULL 11 0xAF 0 true false))
  = Sim true (Regs RX_FULL (24 / 2 - 2) 0x42 0 false false).
Proof.
  apply (frame_after_pending_handshake 24 0x42 true
           (Regs RX_FULL 11 0xAF 0 true false)).
  - vm_compute; discriminate.
  - split; [vm_compute; discriminate | reflexivity].
  - left. split; reflexivity.
Defined.

(** With [div = 4] the late sample falls on the first tick of the next
    bit: the byte received after an acknowledge is not the byte sent. *)
Example late_start_loses_the_byte_at_4 :
  rx_buf (dut (run 4 (uart_rx_byte 4 0x42)
                   (Sim true (Regs RX_FULL 1 0xAF 0 true false))))
  = 0xA1.
Proof. vm_compute. reflexivity. Qed.

(** *** The receive test of the repository *)



End Frames.

(** ** The transmitter's timing and the combined interface *)

Module Top.

Import Testbench.

Lemma tx_after_shift div n s :
  TX.after div n (TX.elaborate div s) = TX.elaborate div (TX.after div n s).
Proof.
  induction n as [|n IH]; [reflexivity|].
  now rewrite !Timing.tx_after_S, IH.
Qed.

Lemma tx_after_closed div n :
  1 <= div ->
  TX.after div n TX.reset = TX.Regs false (Z.of_nat n mod div) 0 0 false.
Proof.
  intros Hdiv.
  pose proof (Timing.tx_after_count div n Hdiv) as Hc.
  assert (Hk : forall m,
             TX.tx (TX.after div m TX.reset) = false
             /\ TX.tx_buf (TX.after div m TX.reset) = 0
             /\ TX.tx_bit (TX.after div m TX.reset) = 0
             /\ TX.tx_fix (TX.after div m TX.reset) = false).
  { induction m as [|m IH]; [now repeat split|].
    rewrite Timing.tx_after_S. exact IH. }
  destruct (Hk n) as (H1 & H2 & H3 & H4).
  destruct (TX.after div n TX.reset) as [t c b i f].
  cbn [TX.tx TX.tx_count TX.tx_buf TX.tx_bit TX.tx_fix] in *.
  now subst.
Qed.

(** The transmitter is a timer and nothing else: [n] clock edges after
    reset its registers are all at their reset values except the counter,
    which holds [n mod div]; its strobe is asserted exactly at the multiples
    of [div], once in every window of [div] edges. *)
Theorem transmitter_only_counts (div : Z) :
  1 <= div ->
  (forall n : nat,
      TX.after div n TX.reset = TX.Regs false (Z.of_nat n mod div) 0 0 false
      /\ TX.tx_strobe (TX.after div n TX.reset) = (Z.of_nat n mod div =? 0))
  /\ (forall k : nat,
        exists n : nat,
          ((k <= n < k + Z.to_nat div)%nat
           /\ TX.tx_strobe (TX.after div n TX.reset) = true)
          /\ forall m : nat,
               (k <= m < k + Z.to_nat div)%nat ->
               TX.tx_strobe (TX.after div m TX.reset) = true -> m = n).
Proof.
  intros Hdiv. split.
  - intros n. split; [now apply tx_after_closed|].
    now apply Timing.tx_strobe_periodic.
  - intros k.
    destruct (Timing.one_multiple_per_window div k Hdiv) as [n [[Hn Hn0] Hu]].
    exists n. split; [split|].
    + exact Hn.
    + rewrite Timing.tx_strobe_periodic by assumption. now apply Z.eqb_eq.
    + intros m Hm Hm0. apply Hu; [exact Hm|].
      rewrite Timing.tx_strobe_periodic in Hm0 by assumption.
      now apply Z.eqb_eq.
Qed.

Lemma transmitter_only_counts_witness :
  TX.after 24 50 TX.reset = TX.Regs false (50 mod 24) 0 0 false
  /\ TX.tx_strobe (TX.after 24 48 TX.reset) = (48 mod 24 =? 0).
Proof.
  destruct (transmitter_only_counts 24) as [H1 _].
  - vm_compute; discriminate.
  - split; [exact (proj1 (H1 50%nat)) | exact (proj2 (H1 48%nat))].
Defined.

(** *** The two submodules side by side *)

Lemma clocked_rx rd td levels :
  forall u,
    Device.uart_rx (Device.clocked rd td levels u)
    = fold_left (fun s rx => RX.elaborate rd rx s) levels (Device.uart_rx u).
Proof.
  induction levels as [|rx levels IH]; intros u; [reflexivity|].
  cbn [Device.clocked fold_left]. now rewrite IH.
Qed.

Lemma clocked_tx rd td levels :
  forall u,
    Device.uart_tx (Device.clocked rd td levels u)
    = TX.after td (length levels) (Device.uart_tx u).
Proof.
  induction levels as [|rx levels IH]; intros u; [reflexivity|].
  cbn [Device.clocked length]. rewrite IH.
  cbn [Device.elaborate Device.uart_tx].
  now rewrite Timing.tx_after_S, tx_after_shift.
Qed.

Lemma ticks_fold div n b :
  forall s,
    run div (repeat Tick n) (Sim b s)
    = Sim b (fold_left (fun s rx => RX.elaborate div rx s) (repeat b n) s).
Proof.
  induction n as [|n IH]; intros s; [reflexivity|].
  cbn [repeat run exec line dut fold_left]. apply IH.
Qed.

Lemma hold_fold div b l s :
  run div (hold div b) (Sim l s)
  = Sim b (fold_left (fun s rx => RX.elaborate div rx s)
                     (repeat b (Z.to_nat div)) s).
Proof. unfold hold, bit_period. cbn [run exec dut]. apply ticks_fold. Qed.

Lemma holds_fold div (f : nat -> bool) (js : list nat) :
  forall l s,
    dut (run div (flat_map (fun i => hold div (f i)) js) (Sim l s))
    = fold_left (fun s rx => RX.elaborate div rx s)
                (flat_map (fun i => repeat (f i) (Z.to_nat div)) js) s.
Proof.
  induction js as [|j js IH]; intros l s; [reflexivity|].
  cbn [flat_map]. rewrite Frame.run_app, hold_fold, fold_left_app.
  apply IH.
Qed.

(** The clock edges of a frame, seen as the levels of the line. *)
Lemma frame_fold div val l s :
  dut (run div (uart_rx_byte div val) (Sim l s))
  = fold_left (fun s rx => RX.elaborate div rx s)
              (Device.frame_levels div val) s.
Proof.
  unfold Device.frame_levels.
  change (uart_rx_byte div val)
    with (hold div false
          ++ flat_map (fun i => hold div (line_bit val i)) (seq 0 8)
          ++ hold div true).
  rewrite !Frame.run_app, !fold_left_app, hold_fold.
  rewrite (Frame.sim_eta (run div (flat_map _ _) _)), holds_fold, hold_fold.
  reflexivity.
Qed.

Lemma frame_levels_length div val :
  length (Device.frame_levels div val) = (10 * Z.to_nat div)%nat.
Proof.
  unfold Device.frame_levels. cbn [flat_map seq].
  rewrite !length_app, !repeat_length. cbn [length]. lia.
Qed.

(** The combined interface during a frame: with a receiver divisor
    [rx_div >= 4] and any transmitter divisor [tx_div >= 1], clocking the
    [UART] module from reset through the [10 * rx_div] edges of a frame
    leaves the receiver in [RX_FULL] with the byte sent, while the
    transmitter has only counted: its line is low and its counter holds
    [10 * rx_div mod tx_div].  Neither submodule sees the other. *)
Theorem uart_receives_while_tx_counts (rx_div tx_div val : Z) :
  4 <= rx_div -> 1 <= tx_div -> 0 <= val < 256 ->
  Device.clocked rx_div tx_div (Device.frame_levels rx_div val) Device.reset
  = Device.UART
      (RX.Regs RX.RX_FULL (rx_div / 2 - 1) val 0 false false)
      (TX.Regs false ((10 * rx_div) mod tx_div) 0 0 false).
Proof.
  intros Hrx Htx Hv.
  pose proof (clocked_rx rx_div tx_div (Device.frame_levels rx_div val)
                         Device.reset) as Hr.
  pose proof (clocked_tx rx_div tx_div (Device.frame_levels rx_div val)
                         Device.reset) as Ht.
  cbn [Device.reset Device.uart_rx Device.uart_tx] in Hr, Ht.
  rewrite <- (frame_fold rx_div val false) in Hr.
  rewrite Frames.idle_frame in Hr by (trivial; reflexivity).
  rewrite frame_levels_length, tx_after_closed in Ht by assumption.
  replace (Z.of_nat (10 * Z.to_nat rx_div)) with (10 * rx_div) in Ht by lia.
  destruct (Device.clocked _ _ _ _) as [r t].
  cbn [Device.uart_rx Device.uart_tx dut] in Hr, Ht. now subst.
Qed.

Lemma uart_receives_while_tx_counts_witness :
  Device.clocked 24 24 (Device.frame_levels 24 0xAF) Device.reset
  = Device.UART
      (RX.Regs RX.RX_FULL (24 / 2 - 1) 0xAF 0 false false)
      (TX.Regs false ((10 * 24) mod 24) 0 0 false).
Proof.
  apply (uart_receives_while_tx_counts 24 24 0xAF).
  - vm_compute; discriminate.
  - vm_compute; discriminate.
  - split; [vm_compute; discriminate | reflexivity].
Defined.

End Top.

(** ** Waiting, and the shift register *)

Module Waiting.

Import RX Testbench.

(** Where nothing is pending the engine only counts: in [RX_IDLE] with the
    line high, in [RX_FULL] with [rx_ack] clear and the line high, and in
    [RX_ERROR] with [rx_fix] clear, any number of ticks leaves the state,
    the buffer, the bit index and the handshake signals as they are; only
    the counter moves, by its own update rule.  A received byte is held
    until it is acknowledged, however long that takes. *)
Theorem parked_states_only_count (div : Z) (n : nat) (l : bool) (s : regs) :
  settled l s -> ~ timed s ->
  run div (repeat Tick n) (Sim l s)
  = Sim l (with_count (Nat.iter n (count_tick div) (rx_count s)) s).
Proof.
  revert s. induction n as [|n IH]; intros s Hs Ht.
  - change (Nat.iter 0 (count_tick div) (rx_count s)) with (rx_count s).
    cbn [repeat run]. now rewrite Frame.with_count_same.
  - assert (E : elaborate div l s
                = with_count (count_tick div (rx_count s)) s).
    { unfold settled in Hs. unfold timed in Ht. unfold elaborate.
      destruct (fsm s).
      - now subst l.
      - exfalso. apply Ht. now left.
      - exfalso. apply Ht. right. now left.
      - exfalso. apply Ht. right. now right.
      - destruct Hs as [-> ->]. reflexivity.
      - now rewrite Hs. }
    rewrite Nat.iter_succ_r.
    cbn [repeat run exec line dut]. rewrite E.
    rewrite (IH (with_count (count_tick div (rx_count s)) s) Hs Ht).
    reflexivity.
Qed.

Lemma parked_states_only_count_witness :
  run 24 (repeat Tick 48) (Sim true (Regs RX_FULL 11 0xAF 0 false false))
  = Sim true
        (with_count (Nat.iter 48 (count_tick 24) 11)
                    (Regs RX_FULL 11 0xAF 0 false false)).
Proof.
  apply (parked_states_only_count 24 48 true
           (Regs RX_FULL 11 0xAF 0 false false)).
  - split; reflexivity.
  - intros [H | [H | H]]; discriminate H.
Defined.

(** *** Eight strobes replace the whole buffer *)

Lemma sample_testbit buf b n :
  0 <= n ->
  Z.testbit (sample buf b) n
  = if n <? 7 then Z.testbit buf (n + 1) else if n =? 7 then b else false.
Proof.
  intros Hn. unfold sample.
  rewrite Timing.trunc_small by apply RXStep.shift_in_range.
  now apply RXStep.shift_in_testbit.
Qed.

(** Bit [n] of the buffer after the samples [bs]: an old bit of the buffer
    while fewer than [8 - n] samples have been taken, a sample after. *)
Lemma samples_testbit bs :
  forall buf n,
    0 <= n <= 7 ->
    Z.testbit (fold_left sample bs buf) n
    = if n + Z.of_nat (length bs) <? 8
      then Z.testbit buf (n + Z.of_nat (length bs))
      else nth (Z.to_nat (n + Z.of_nat (length bs) - 8)) bs false.
Proof.
  induction bs as [|b bs IH] using rev_ind; intros buf n Hn.
  - cbn [fold_left length]. replace (n + Z.of_nat 0) with n by lia.
    destruct (Z.ltb_spec n 8); [reflexivity | lia].
  - rewrite fold_left_app, length_app. cbn [fold_left length].
    rewrite sample_testbit by lia.
    replace (n + Z.of_nat (length bs + 1)) with (n + 1 + Z.of_nat (length bs))
      by lia.
    destruct (Z.ltb_spec n 7) as [Hlt|Hge].
    + rewrite IH by lia.
      destruct (Z.ltb_spec (n + 1 + Z.of_nat (length bs)) 8);
        [reflexivity|].
      rewrite app_nth1 by lia. reflexivity.
    + replace n with 7 by lia. rewrite Z.eqb_refl.
      destruct (Z.ltb_spec (7 + 1 + Z.of_nat (length bs)) 8); [lia|].
      replace (Z.to_nat (7 + 1 + Z.of_nat (length bs) - 8)) with (length bs)
        by lia.
      now rewrite nth_middle.
Qed.

(** The test [val & ( 1 << i )] of the testbench reads bit [i] of [val]. *)
Lemma line_bit_testbit val i : line_bit val i = Z.testbit val (Z.of_nat i).
Proof.
  unfold line_bit. rewrite Z.shiftl_1_l.
  destruct (Z.testbit val (Z.of_nat i)) eqn:Hb.
  - apply negb_true_iff, Z.eqb_neq. intros H0.
    assert (Hc : Z.testbit (Z.land val (2 ^ Z.of_nat i)) (Z.of_nat i) = true).
    { rewrite Z.land_spec, Hb, Z.pow2_bits_true by lia. reflexivity. }
    rewrite H0, Z.testbit_0_l in Hc. discriminate Hc.
  - apply negb_false_iff, Z.eqb_eq. apply Z.bits_inj'. intros n Hn.
    rewrite Z.land_spec, Z.testbit_0_l, Z.pow2_bits_eqb by lia.
    destruct (Z.eqb_spec (Z.of_nat i) n) as [<-|_].
    + now rewrite Hb.
    + apply andb_false_r.
Qed.

(** Round trip of the testbench's bit order and the engine's shift
    register: for every integer [val] and whatever the buffer held before,
    eight strobes that sample the levels [uart_rx_byte] drives for [val]
    leave [val mod 256] in the buffer, no bit of the old content and no bit
    of [val] above the eighth. *)
Theorem byte_round_trip (val buf : Z) :
  fold_left sample (map (line_bit val) (seq 0 8)) buf = val mod 256.
Proof.
  apply Z.bits_inj'. intros n Hn.
  change 256 with (2 ^ 8).
  destruct (Z_lt_le_dec n 8) as [Hlt|Hge].
  - rewrite samples_testbit by lia.
    rewrite Z.mod_pow2_bits_low by lia.
    rewrite length_map, length_seq.
    destruct (Z.ltb_spec (n + Z.of_nat 8) 8); [lia|].
    replace (n + Z.of_nat 8 - 8) with n by lia.
    rewrite <- (Z2Nat.id n) at 2 by lia.
    rewrite <- line_bit_testbit.
    assert (Hk : (Z.to_nat n < 8)%nat) by lia.
    destruct (Z.to_nat n) as [|[|[|[|[|[|[|[|k]]]]]]]]; try reflexivity. lia.
  - rewrite Z.mod_pow2_bits_high by lia.
    change (map (line_bit val) (seq 0 8))
      with (map (line_bit val) (seq 0 7) ++ [line_bit val 7%nat]).
    rewrite fold_left_app. cbn [fold_left].
    rewrite sample_testbit by lia.
    destruct (Z.ltb_spec n 7); [lia|].
    destruct (Z.eqb_spec n 7); [lia | reflexivity].
Qed.

End Waiting.
